(** * batsignal: battery state machine, aggregation and poll scheduling

    A shallow embedding of [batsignal.c].  The program keeps its
    configuration and its battery information in file-scope variables;
    here they are grouped in records that follow the comment headings of
    the source, and every function takes and returns the records it
    reads and writes.  Calls that leave the process ([err], [errx],
    [exit]) are results of type [outcome]. *)

From Stdlib Require Import ZArith List String Ascii Bool Lia.
Import ListNotations.
Local Open Scope Z_scope.

(** ** Machine integers

    [int] and [unsigned int] are 32 bits wide.  Values are kept in [Z]
    and every conversion is written out. *)

Module CInt.

Definition INT_MIN : Z := - 2 ^ 31.
Definition INT_MAX : Z := 2 ^ 31 - 1.

(** Conversion to [unsigned int]: reduction modulo 2^32. *)
Definition to_uint (z : Z) : Z := z mod 2 ^ 32.

(** Conversion to [int], two's complement. *)
Definition to_int (z : Z) : Z := (z + 2 ^ 31) mod 2 ^ 32 - 2 ^ 31.

(** An [int] used as a condition. *)
Definition truth (z : Z) : bool := negb (z =? 0).

Definition in_int (z : Z) : bool := (INT_MIN <=? z) && (z <=? INT_MAX).

(** [int - int] and [int * int].  A result outside [int] is not defined by
    the language; it is taken modulo 2^32, as the usual compilers leave
    it. *)
Definition int_sub (a b : Z) : Z := to_int (a - b).
Definition int_mul (a b : Z) : Z := to_int (a * b).

(** [e += tmp] with [e] an [int] and [tmp] an [unsigned int]: the sum is
    formed in [unsigned int] and stored back into the [int]. *)
Definition add_assign_uint (e tmp : Z) : Z :=
  to_int (to_uint (to_uint e + tmp)).

End CInt.
Import CInt.

(** ** Battery states *)

Inductive state : Type :=
| STATE_AC
| STATE_DISCHARGING
| STATE_WARNING
| STATE_CRITICAL
| STATE_DANGER
| STATE_FULL.

(** The values of the [#define]s. *)
Definition state_code (s : state) : Z :=
  match s with
  | STATE_AC => 0
  | STATE_DISCHARGING => 1
  | STATE_WARNING => 2
  | STATE_CRITICAL => 3
  | STATE_DANGER => 4
  | STATE_FULL => 5
  end.

Definition state_eqb (a b : state) : bool := state_code a =? state_code b.

(** ** The file-scope variables *)

(** program operation options *)
Record operation : Type := {
  daemonize : bool;
  run_once : bool;
  battery_required : bool;
  show_notifications : bool;
  show_charging_msg : bool;
  battery_name_specified : bool
}.

(** battery information *)
Record battery_info : Type := {
  battery_discharging : bool;
  battery_full : bool;
  battery_state : state;
  battery_level : Z;
  energy_full : Z;
  energy_now : Z
}.

(** check frequency multiplier (seconds) *)
Record frequency : Type := {
  multiplier : Z;
  fixed : bool
}.

(** battery warning levels *)
Record levels : Type := {
  warning : Z;
  critical : Z;
  danger : Z;
  full : Z
}.

(** messages, commands, and the look of a notification *)
Record messages : Type := {
  warningmsg : string;
  criticalmsg : string;
  fullmsg : string;
  chargingmsg : string;
  dischargingmsg : string;
  dangercmd : string;
  msgcmd : string;
  appname : string;
  icon : option string;
  notification_expires : Z
}.

Record config : Type := {
  op : operation;
  battery_names : list string;
  amount_batteries : Z;
  freq : frequency;
  lvl : levels;
  msgs : messages
}.

Definition NOTIFY_EXPIRES_DEFAULT : Z := -1.
Definition NOTIFY_EXPIRES_NEVER : Z := 0.

(** The initialisers of the source. *)
Definition initial_config : config := {|
  op := {| daemonize := false; run_once := false; battery_required := true;
           show_notifications := true; show_charging_msg := false;
           battery_name_specified := false |};
  battery_names := [];
  amount_batteries := 1;
  freq := {| multiplier := 60; fixed := false |};
  lvl := {| warning := 15; critical := 5; danger := 2; full := 0 |};
  msgs := {| warningmsg := "Battery is low";
             criticalmsg := "Battery is critically low";
             fullmsg := "Battery is full";
             chargingmsg := "Battery is charging";
             dischargingmsg := "Battery is discharging";
             dangercmd := "";
             msgcmd := "";
             appname := "batsignal";
             icon := None;
             notification_expires := NOTIFY_EXPIRES_NEVER |}
|}.

Definition initial_battery_info : battery_info := {|
  battery_discharging := false;
  battery_full := true;
  battery_state := STATE_AC;
  battery_level := 100;
  energy_full := 0;
  energy_now := 0
|}.

Definition set_battery_state (s : state) (b : battery_info) : battery_info :=
  {| battery_discharging := battery_discharging b;
     battery_full := battery_full b;
     battery_state := s;
     battery_level := battery_level b;
     energy_full := energy_full b;
     energy_now := energy_now b |}.

(** ** What the program does to the outside *)

Inductive urgency : Type :=
| NOTIFY_URGENCY_LOW
| NOTIFY_URGENCY_NORMAL
| NOTIFY_URGENCY_CRITICAL.

Inductive event : Type :=
| Danger_command (cmd : string)
    (* system(dangercmd) *)
| Message_command (format msg : string) (level : Z)
    (* system(msgcmdbuf): msgcmd formatted over the message and the level *)
| Notification_show (summary : string) (level : Z) (u : urgency)
                    (timeout : Z) (icon : option string)
    (* notify_notification_update, _set_urgency, _set_timeout, _show *)
| Notification_close.
    (* notify_notification_close *)

(** A message or command reaching the user, as opposed to a dismissal. *)
Definition fires (e : event) : bool :=
  match e with
  | Notification_close => false
  | _ => true
  end.

Definition nonempty (s : string) : bool :=
  match s with
  | EmptyString => false
  | String _ _ => true
  end.

(** [notification] tells whether the notification pointer is non-null. *)
Definition update_notification (c : config) (b : battery_info)
    (msg : string) (u : urgency) (notification : bool) : list event :=
  (if nonempty (msgcmd (msgs c))
   then [Message_command (msgcmd (msgs c)) msg (battery_level b)]
   else [])
  ++
  (if notification && show_notifications (op c) && nonempty msg
   then [Notification_show msg (battery_level b) u
           (notification_expires (msgs c)) (icon (msgs c))]
   else []).

(** ** One turn of the loop of [main], after [update_batteries]

    [b] holds the fresh reading together with the state left by the turn
    before.  The result is the battery information, the events in the
    order they happen, and [duration]. *)

Definition main_loop_body (c : config) (notification : bool)
    (previous_discharging_status : bool) (b : battery_info)
    : battery_info * list event * Z :=
  let duration := to_uint (multiplier (freq c)) in
  let adaptive (threshold : Z) :=
    if fixed (freq c) then duration
    else to_uint (int_mul (int_sub (battery_level b) threshold)
                          (multiplier (freq c))) in
  let flipped :=
    negb (Bool.eqb (battery_discharging b) previous_discharging_status) in
  if battery_discharging b then (* discharging *)
    if truth (danger (lvl c)) && (battery_level b <=? danger (lvl c)) then
      if negb (state_eqb (battery_state b) STATE_DANGER) then
        (set_battery_state STATE_DANGER b,
         if nonempty (dangercmd (msgs c))
         then [Danger_command (dangercmd (msgs c))] else [],
         duration)
      else (b, [], duration)
    else if truth (critical (lvl c))
            && (battery_level b <=? critical (lvl c)) then
      if negb (state_eqb (battery_state b) STATE_CRITICAL) then
        (set_battery_state STATE_CRITICAL b,
         update_notification c b (criticalmsg (msgs c))
           NOTIFY_URGENCY_CRITICAL notification,
         duration)
      else (b, [], duration)
    else if truth (warning (lvl c))
            && (battery_level b <=? warning (lvl c)) then
      if negb (state_eqb (battery_state b) STATE_WARNING) then
        (set_battery_state STATE_WARNING b,
         update_notification c b (warningmsg (msgs c))
           NOTIFY_URGENCY_NORMAL notification,
         adaptive (critical (lvl c)))
      else (b, [], adaptive (critical (lvl c)))
    else
      (set_battery_state STATE_DISCHARGING b,
       (if show_charging_msg (op c) && flipped then
          update_notification c b (dischargingmsg (msgs c))
            NOTIFY_URGENCY_NORMAL notification
        else if state_eqb (battery_state b) STATE_FULL then
          [Notification_close]
        else []),
       adaptive (warning (lvl c)))
  else (* charging *)
    if (truth (full (lvl c)) && negb (state_eqb (battery_state b) STATE_FULL))
       && ((battery_level b >=? full (lvl c)) || battery_full b) then
      (set_battery_state STATE_FULL b,
       update_notification c b (fullmsg (msgs c))
         NOTIFY_URGENCY_NORMAL notification,
       duration)
    else if show_charging_msg (op c) && flipped then
      (set_battery_state STATE_AC b,
       update_notification c b (chargingmsg (msgs c))
         NOTIFY_URGENCY_NORMAL notification,
       duration)
    else
      (set_battery_state STATE_AC b, [Notification_close], duration).

(** How the turn ends: leave the loop, wait for SIGUSR1 without a
    timeout, or wait for it at most [duration] seconds. *)
Inductive wait : Type :=
| Break
| Sigwaitinfo
| Sigtimedwait (tv_sec : Z).

Definition main_loop_wait (c : config) (duration : Z) : wait :=
  if run_once (op c) then Break
  else if multiplier (freq c) =? 0 then Sigwaitinfo
  else Sigtimedwait duration.

(** ** Leaving the process *)

Inductive exit_reason : Type :=
| Help_printed                          (* -h, exit(0) *)
| Version_printed                       (* -v, exit(0) *)
| Unknown_option (optopt : ascii)
| Option_requires_argument (optopt : ascii)
| Option_out_of_range (option : ascii) (bound : Z)
| Warning_not_above_critical
| Critical_not_above_danger
| Full_not_above (lowlvl : Z)
| Could_not_read (battery : nat) (attribute : string).

Definition EXIT_SUCCESS : Z := 0.
Definition EXIT_FAILURE : Z := 1.

Definition exit_status (r : exit_reason) : Z :=
  match r with
  | Help_printed | Version_printed => EXIT_SUCCESS
  | _ => EXIT_FAILURE
  end.

(** A call returns, ends the process, or has no defined result (a
    [double] that is not a number or does not fit is stored in an
    [int]). *)
Inductive outcome (A : Type) : Type :=
| Return (a : A)
| Exit (r : exit_reason)
| Undefined.
Arguments Return {A} a.
Arguments Exit {A} r.
Arguments Undefined {A}.

Definition bind {A B : Type} (m : outcome A) (k : A -> outcome B) : outcome B :=
  match m with
  | Return a => k a
  | Exit r => Exit r
  | Undefined => Undefined
  end.

Notation "x <- m ;; k" := (bind m (fun x => k))
  (at level 61, m at next level, right associativity).

(** ** The power supply directory

    What /sys/class/power_supply/NAME shows for one battery.  A numeric
    attribute file is absent, or present with text that "%u" does not
    match, or present with a number; [status] is [None] when the file
    cannot be opened.  A file that is present and empty, on which
    [fscanf] reports the end of the input rather than 0 matches, is not
    among the cases. *)

Inductive attribute_file : Type :=
| Absent
| Unparsable
| Number (v : Z).

Record battery : Type := {
  status : option string;
  charge_now : attribute_file;
  charge_full : attribute_file;
  energy_now_file : attribute_file;
  energy_full_file : attribute_file;
  capacity : attribute_file
}.

(** [access(attr_path, F_OK) == 0] *)
Definition access (f : attribute_file) : bool :=
  match f with
  | Absent => false
  | _ => true
  end.

(** [fopen] followed by [fscanf(file, "%u", &tmp)]: [None] stands for
    [file == NULL || fscanf(...) == 0]. *)
Definition fscanf_u (f : attribute_file) : option Z :=
  match f with
  | Number v => Some (to_uint v)
  | _ => None
  end.

Definition POWER_SUPPLY_FULL : string := "Full".
Definition POWER_SUPPLY_DISCHARGING : string := "Discharging".

(** The attribute names [set_attributes] chooses between. *)
Inductive now_attribute : Type :=
| Attr_charge_now
| Attr_energy_now
| Attr_capacity.

Definition now_name (a : now_attribute) : string :=
  match a with
  | Attr_charge_now => "charge_now"%string
  | Attr_energy_now => "energy_now"%string
  | Attr_capacity => "capacity"%string
  end.

(** [full_attribute], NULL for "capacity". *)
Definition full_name (a : now_attribute) : option string :=
  match a with
  | Attr_charge_now => Some "charge_full"%string
  | Attr_energy_now => Some "energy_full"%string
  | Attr_capacity => None
  end.

Definition set_attributes (bat : battery) : now_attribute :=
  if access (charge_now bat) then Attr_charge_now
  else if access (energy_now_file bat) then Attr_energy_now
  else Attr_capacity.

Definition now_file (a : now_attribute) (bat : battery) : attribute_file :=
  match a with
  | Attr_charge_now => charge_now bat
  | Attr_energy_now => energy_now_file bat
  | Attr_capacity => capacity bat
  end.

(** The file behind [full_attribute], when there is one. *)
Definition full_file (a : now_attribute) (bat : battery)
    : option attribute_file :=
  match a with
  | Attr_charge_now => Some (charge_full bat)
  | Attr_energy_now => Some (energy_full_file bat)
  | Attr_capacity => None
  end.

(** ** [round(100.0 * energy_now / energy_full)]

    Both operands are [int]s, so [100.0 * energy_now] is exact in binary64
    and the quotient is the correctly rounded value of the rational
    [100 * energy_now / energy_full].  Every half-integer below 2^52 is a
    binary64 number and the rational, when it is not a half-integer, is at
    least 1 / (2 * |energy_full|) away from one, which is more than the
    rounding error; so [round] of the binary64 quotient is [round] of the
    rational, and the latter is computed here.  Division by zero gives an
    infinity or a NaN. *)

(** The integer nearest to [p / q], halfway cases away from zero. *)
Definition round_div (p q : Z) : Z :=
  Z.sgn p * Z.sgn q * ((2 * Z.abs p + Z.abs q) / (2 * Z.abs q)).

(** The value stored in [battery_level], an [int]. *)
Definition level_of (energy_now energy_full : Z) : option Z :=
  if energy_full =? 0 then None
  else
    let r := round_div (100 * energy_now) energy_full in
    if in_int r then Some r else None.

(** ** [update_batteries] *)

(** The four variables the loop over the batteries updates. *)
Record totals : Type := {
  t_discharging : bool;
  t_full : bool;
  t_energy_now : Z;
  t_energy_full : Z
}.

Definition totals_start : totals :=
  {| t_discharging := false; t_full := true;
     t_energy_now := 0; t_energy_full := 0 |}.

Definition see_status (st : string) (t : totals) : totals :=
  {| t_discharging := t_discharging t || String.eqb st POWER_SUPPLY_DISCHARGING;
     t_full := t_full t && String.eqb st POWER_SUPPLY_FULL;
     t_energy_now := t_energy_now t;
     t_energy_full := t_energy_full t |}.

Definition add_energy (tmp_now tmp_full : Z) (t : totals) : totals :=
  {| t_discharging := t_discharging t;
     t_full := t_full t;
     t_energy_now := add_assign_uint (t_energy_now t) tmp_now;
     t_energy_full := add_assign_uint (t_energy_full t) tmp_full |}.

(** The [for] loop, from battery number [i] on.  An unreadable file ends
    the process when a battery is required, and otherwise moves on to the
    next battery ([continue]). *)
Fixpoint batteries_loop (required : bool) (attr : now_attribute)
    (i : nat) (bats : list battery) (t : totals) : outcome totals :=
  match bats with
  | [] => Return t
  | bat :: rest =>
      let unreadable (name : string) (t' : totals) :=
        if required then Exit (Could_not_read i name)
        else batteries_loop required attr (S i) rest t' in
      match status bat with
      | None => unreadable "status"%string t
      | Some st =>
          let t1 := see_status st t in
          match fscanf_u (now_file attr bat) with
          | None => unreadable (now_name attr) t1
          | Some tmp_now =>
              match full_file attr bat with
              | Some f =>
                  match fscanf_u f with
                  | None =>
                      unreadable
                        (match full_name attr with
                         | Some n => n
                         | None => EmptyString
                         end) t1
                  | Some tmp_full =>
                      batteries_loop required attr (S i) rest
                        (add_energy tmp_now tmp_full t1)
                  end
              | None =>
                  batteries_loop required attr (S i) rest
                    (add_energy tmp_now 100 t1)
              end
          end
      end
  end.

(** The last statement: the level goes into [battery_level], next to
    what the loop left. *)
Definition store_level (b : battery_info) (t : totals)
    : outcome battery_info :=
  match level_of (t_energy_now t) (t_energy_full t) with
  | None => Undefined
  | Some level =>
      Return {| battery_discharging := t_discharging t;
                battery_full := t_full t;
                battery_state := battery_state b;
                battery_level := level;
                energy_full := t_energy_full t;
                energy_now := t_energy_now t |}
  end.

(** [bats] are the directories of [battery_names], in order.  The
    attribute names are those of the first battery; with no battery at
    all [battery_names[0]] is read out of bounds. *)
Definition update_batteries (c : config) (bats : list battery)
    (b : battery_info) : outcome battery_info :=
  match bats with
  | [] => Undefined
  | first :: _ =>
      t <- batteries_loop (battery_required (op c)) (set_attributes first)
             0%nat bats totals_start ;;
      store_level b t
  end.

(** ** Writing the configuration *)

Definition with_op (f : operation -> operation) (c : config) : config :=
  {| op := f (op c); battery_names := battery_names c;
     amount_batteries := amount_batteries c;
     freq := freq c; lvl := lvl c; msgs := msgs c |}.

Definition with_freq (f : frequency -> frequency) (c : config) : config :=
  {| op := op c; battery_names := battery_names c;
     amount_batteries := amount_batteries c;
     freq := f (freq c); lvl := lvl c; msgs := msgs c |}.

Definition with_lvl (f : levels -> levels) (c : config) : config :=
  {| op := op c; battery_names := battery_names c;
     amount_batteries := amount_batteries c;
     freq := freq c; lvl := f (lvl c); msgs := msgs c |}.

Definition with_msgs (f : messages -> messages) (c : config) : config :=
  {| op := op c; battery_names := battery_names c;
     amount_batteries := amount_batteries c;
     freq := freq c; lvl := lvl c; msgs := f (msgs c) |}.

Definition with_names (names : list string) (amount : Z) (c : config)
    : config :=
  {| op := op c; battery_names := names; amount_batteries := amount;
     freq := freq c; lvl := lvl c; msgs := msgs c |}.

Definition set_fixed (v : bool) (q : frequency) : frequency :=
  {| multiplier := multiplier q; fixed := v |}.

Definition set_multiplier (v : Z) (q : frequency) : frequency :=
  {| multiplier := v; fixed := fixed q |}.

Definition set_warning (v : Z) (l : levels) : levels :=
  {| warning := v; critical := critical l;
     danger := danger l; full := full l |}.

Definition set_critical (v : Z) (l : levels) : levels :=
  {| warning := warning l; critical := v;
     danger := danger l; full := full l |}.

Definition set_danger (v : Z) (l : levels) : levels :=
  {| warning := warning l; critical := critical l;
     danger := v; full := full l |}.

Definition set_full (v : Z) (l : levels) : levels :=
  {| warning := warning l; critical := critical l;
     danger := danger l; full := v |}.

(** The boolean options: one function, selected by the letter's effect. *)
Inductive flag : Type :=
| Flag_daemonize
| Flag_run_once
| Flag_battery_required
| Flag_show_notifications
| Flag_show_charging_msg
| Flag_battery_name_specified.

Definition set_flag (which : flag) (v : bool) (o : operation) : operation :=
  {| daemonize :=
       match which with Flag_daemonize => v | _ => daemonize o end;
     run_once :=
       match which with Flag_run_once => v | _ => run_once o end;
     battery_required :=
       match which with
       | Flag_battery_required => v
       | _ => battery_required o
       end;
     show_notifications :=
       match which with
       | Flag_show_notifications => v
       | _ => show_notifications o
       end;
     show_charging_msg :=
       match which with
       | Flag_show_charging_msg => v
       | _ => show_charging_msg o
       end;
     battery_name_specified :=
       match which with
       | Flag_battery_name_specified => v
       | _ => battery_name_specified o
       end |}.

(** The string options likewise. *)
Inductive text : Type :=
| Text_warningmsg
| Text_criticalmsg
| Text_fullmsg
| Text_chargingmsg
| Text_dischargingmsg
| Text_dangercmd
| Text_msgcmd
| Text_appname.

Definition set_text (which : text) (v : string) (m : messages) : messages :=
  {| warningmsg :=
       match which with Text_warningmsg => v | _ => warningmsg m end;
     criticalmsg :=
       match which with Text_criticalmsg => v | _ => criticalmsg m end;
     fullmsg := match which with Text_fullmsg => v | _ => fullmsg m end;
     chargingmsg :=
       match which with Text_chargingmsg => v | _ => chargingmsg m end;
     dischargingmsg :=
       match which with Text_dischargingmsg => v | _ => dischargingmsg m end;
     dangercmd := match which with Text_dangercmd => v | _ => dangercmd m end;
     msgcmd := match which with Text_msgcmd => v | _ => msgcmd m end;
     appname := match which with Text_appname => v | _ => appname m end;
     icon := icon m;
     notification_expires := notification_expires m |}.

Definition set_icon (v : string) (m : messages) : messages :=
  {| warningmsg := warningmsg m; criticalmsg := criticalmsg m;
     fullmsg := fullmsg m; chargingmsg := chargingmsg m;
     dischargingmsg := dischargingmsg m; dangercmd := dangercmd m;
     msgcmd := msgcmd m; appname := appname m;
     icon := Some v;
     notification_expires := notification_expires m |}.

Definition set_notification_expires (v : Z) (m : messages) : messages :=
  {| warningmsg := warningmsg m; criticalmsg := criticalmsg m;
     fullmsg := fullmsg m; chargingmsg := chargingmsg m;
     dischargingmsg := dischargingmsg m; dangercmd := dangercmd m;
     msgcmd := msgcmd m; appname := appname m;
     icon := icon m;
     notification_expires := v |}.

(** ** [split]

    [strtok] yields the maximal runs of characters other than the
    delimiter.  [pending] is the run being read. *)
Fixpoint strtok_all (delim : ascii) (s pending : string) : list string :=
  match s with
  | EmptyString => if nonempty pending then [pending] else []
  | String ch rest =>
      if Ascii.eqb ch delim then
        (if nonempty pending then [pending] else [])
          ++ strtok_all delim rest EmptyString
      else strtok_all delim rest (pending ++ String ch EmptyString)
  end.

(** The names found and the count returned: the count starts at one more
    than the number of delimiters and is taken down once for every token
    that is missing after the first. *)
Definition split (input : string) (delim : ascii) : list string * Z :=
  let out := strtok_all delim input EmptyString in
  (out, Z.max 1 (Z.of_nat (List.length out))).

(** ** [parse_args]

    What [getopt] hands to the [switch], one value per turn of the
    [while]: the option letter with [optarg], or '?' and ':' with
    [optopt]. *)
Inductive getopt_result : Type :=
| Opt_h | Opt_v | Opt_b | Opt_o | Opt_i | Opt_e | Opt_p | Opt_N
| Opt_w (optarg : string)
| Opt_c (optarg : string)
| Opt_d (optarg : string)
| Opt_f (optarg : string)
| Opt_W (optarg : string)
| Opt_C (optarg : string)
| Opt_D (optarg : string)
| Opt_F (optarg : string)
| Opt_P (optarg : string)
| Opt_U (optarg : string)
| Opt_M (optarg : string)
| Opt_n (optarg : string)
| Opt_m (optarg : string)
| Opt_a (optarg : string)
| Opt_I (optarg : string)
| Opt_unknown (optopt : ascii)
| Opt_missing (optopt : ascii).

Section ParseArgs.

(** [strtoul s] is the value of [strtoul(s, NULL, 10)], an
    [unsigned long]; storing it in an [int] variable converts it. *)
Variable strtoul : string -> Z.

Definition parse_option (o : getopt_result) (c : config) : outcome config :=
  match o with
  | Opt_h => Exit Help_printed
  | Opt_v => Exit Version_printed
  | Opt_b => Return (with_op (set_flag Flag_daemonize true) c)
  | Opt_o => Return (with_op (set_flag Flag_run_once true) c)
  | Opt_i => Return (with_op (set_flag Flag_battery_required false) c)
  | Opt_w optarg =>
      Return (with_lvl (set_warning (to_int (strtoul optarg))) c)
  | Opt_c optarg =>
      Return (with_lvl (set_critical (to_int (strtoul optarg))) c)
  | Opt_d optarg =>
      Return (with_lvl (set_danger (to_int (strtoul optarg))) c)
  | Opt_f optarg =>
      Return (with_freq (set_fixed true)
                (with_lvl (set_full (to_int (strtoul optarg))) c))
  | Opt_p =>
      Return (with_freq (set_fixed true)
                (with_op (set_flag Flag_show_charging_msg true) c))
  | Opt_W optarg => Return (with_msgs (set_text Text_warningmsg optarg) c)
  | Opt_C optarg => Return (with_msgs (set_text Text_criticalmsg optarg) c)
  | Opt_D optarg => Return (with_msgs (set_text Text_dangercmd optarg) c)
  | Opt_F optarg => Return (with_msgs (set_text Text_fullmsg optarg) c)
  | Opt_P optarg => Return (with_msgs (set_text Text_chargingmsg optarg) c)
  | Opt_U optarg => Return (with_msgs (set_text Text_dischargingmsg optarg) c)
  | Opt_M optarg => Return (with_msgs (set_text Text_msgcmd optarg) c)
  | Opt_N => Return (with_op (set_flag Flag_show_notifications false) c)
  | Opt_n optarg =>
      let (names, count) := split optarg ","%char in
      Return (with_names names count
                (with_op (set_flag Flag_battery_name_specified true) c))
  | Opt_m optarg =>
      match optarg with
      | String "+"%char rest =>
          Return (with_freq (set_multiplier (to_int (strtoul rest)))
                    (with_freq (set_fixed true) c))
      | _ => Return (with_freq (set_multiplier (to_int (strtoul optarg))) c)
      end
  | Opt_a optarg => Return (with_msgs (set_text Text_appname optarg) c)
  | Opt_I optarg => Return (with_msgs (set_icon optarg) c)
  | Opt_e =>
      Return (with_msgs (set_notification_expires NOTIFY_EXPIRES_DEFAULT) c)
  | Opt_unknown optopt => Exit (Unknown_option optopt)
  | Opt_missing optopt => Exit (Option_requires_argument optopt)
  end.

Fixpoint parse_args (argv : list getopt_result) (c : config)
    : outcome config :=
  match argv with
  | [] => Return c
  | o :: rest => c' <- parse_option o c ;; parse_args rest c'
  end.

End ParseArgs.

(** ** [validate_options] *)

Definition out_of (lo hi v : Z) : bool := (v >? hi) || (v <? lo).

Definition lowlvl (l : levels) : Z :=
  if truth (warning l) || truth (critical l)
  then (if truth (warning l) then warning l else critical l)
  else danger l.

Definition validate_options (c : config) : outcome unit :=
  let l := lvl c in
  (* Sanity check numeric values *)
  if out_of 0 100 (warning l) then Exit (Option_out_of_range "w" 100)
  else if out_of 0 100 (critical l) then Exit (Option_out_of_range "c" 100)
  else if out_of 0 100 (danger l) then Exit (Option_out_of_range "d" 100)
  else if out_of 0 100 (full l) then Exit (Option_out_of_range "f" 100)
  else if (multiplier (freq c) <? 0) || (multiplier (freq c) >? 3600)
  then Exit (Option_out_of_range "m" 3600)
  (* Ensure levels are correctly ordered *)
  else if truth (warning l) && (warning l <=? critical l)
  then Exit Warning_not_above_critical
  else if truth (critical l) && (critical l <=? danger l)
  then Exit Critical_not_above_danger
  (* Ensure the full level is higher than the warning levels *)
  else if truth (full l) && (full l <=? lowlvl l)
  then Exit (Full_not_above (lowlvl l))
  else Return tt.

(** ** [main] *)

(** One turn of the loop, as it is seen from outside: the battery
    information after [update_batteries], the flag saved before it, the
    information the turn leaves, and what the turn did. *)
Record turn : Type := {
  previous_discharging : bool;
  before : battery_info;
  after : battery_info;
  events : list event;
  duration : Z;
  waits : wait
}.

(** The [for (;;)] loop.  [samples] gives the power supply directory as
    [update_batteries] finds it at each turn; the loop is followed for as
    many turns as there are samples. *)
Fixpoint main_loop (c : config) (notification : bool)
    (samples : list (list battery)) (b : battery_info)
    : list turn * outcome battery_info :=
  match samples with
  | [] => ([], Return b)
  | bats :: rest =>
      let previous_discharging_status := battery_discharging b in
      match update_batteries c bats b with
      | Return b1 =>
          let '(b2, evs, d) :=
            main_loop_body c notification previous_discharging_status b1 in
          let t := {| previous_discharging := previous_discharging_status;
                      before := b1; after := b2; events := evs;
                      duration := d; waits := main_loop_wait c d |} in
          match main_loop_wait c d with
          | Break => ([t], Return b2)
          | _ =>
              let (ts, r) := main_loop c notification rest b2 in
              (t :: ts, r)
          end
      | Exit r => ([], Exit r)
      | Undefined => ([], Undefined)
      end
  end.

(** The start of [main]: the options of the configuration file, when
    there is one, then those of the command line, then the checks. *)
Definition startup (strtoul : string -> Z)
    (conf : option (list getopt_result)) (argv : list getopt_result)
    : outcome config :=
  c1 <- match conf with
        | Some conf_argv => parse_args strtoul conf_argv initial_config
        | None => Return initial_config
        end ;;
  c2 <- parse_args strtoul argv c1 ;;
  _ <- validate_options c2 ;;
  Return c2.

(** [main] from the first [update_batteries] on. *)
Definition monitor (c : config) (notification : bool)
    (first : list battery) (samples : list (list battery))
    : list turn * outcome battery_info :=
  match update_batteries c first initial_battery_info with
  | Return b => main_loop c notification samples b
  | Exit r => ([], Exit r)
  | Undefined => ([], Undefined)
  end.

(** ** Notions of the specification *)

(** What one battery adds to [energy_now] and [energy_full] when all three
    of its files are read, under the attribute names in force. *)
Definition reading (attr : now_attribute) (bat : battery) : option (Z * Z) :=
  match status bat, fscanf_u (now_file attr bat), full_file attr bat with
  | Some _, Some tmp_now, Some f =>
      match fscanf_u f with
      | Some tmp_full => Some (tmp_now, tmp_full)
      | None => None
      end
  | Some _, Some tmp_now, None => Some (tmp_now, 100)
  | _, _, _ => None
  end.

Fixpoint sum_now (attr : now_attribute) (bats : list battery) : Z :=
  match bats with
  | [] => 0
  | bat :: rest =>
      match reading attr bat with
      | Some (n, _) => n + sum_now attr rest
      | None => sum_now attr rest
      end
  end.

Fixpoint sum_full (attr : now_attribute) (bats : list battery) : Z :=
  match bats with
  | [] => 0
  | bat :: rest =>
      match reading attr bat with
      | Some (_, f) => f + sum_full attr rest
      | None => sum_full attr rest
      end
  end.

Definition readable (attr : now_attribute) (bat : battery) : bool :=
  match reading attr bat with
  | Some _ => true
  | None => false
  end.

(** The scheduler contract of the specification, section 4.4. *)
Definition next_delay (s : state) (level : Z) (c : config) : Z :=
  if fixed (freq c) || (multiplier (freq c) =? 0) then multiplier (freq c)
  else
    match s with
    | STATE_WARNING => (level - critical (lvl c)) * multiplier (freq c)
    | STATE_DISCHARGING => (level - warning (lvl c)) * multiplier (freq c)
    | _ => multiplier (freq c)
    end.

(** The priority list of the specification, section 4.2, discharging
    path. *)
Definition discharging_priority (level : Z) (l : levels) : state :=
  if level <=? danger l then STATE_DANGER
  else if level <=? critical l then STATE_CRITICAL
  else if level <=? warning l then STATE_WARNING
  else STATE_DISCHARGING.

(** The startup conditions of the specification: the highest nonzero of
    [warning] and [critical] is their maximum once both are in range. *)
Definition rejected_as_specified (c : config) : bool :=
  let l := lvl c in
  out_of 0 100 (warning l) || out_of 0 100 (critical l)
  || out_of 0 100 (danger l) || out_of 0 100 (full l)
  || (truth (warning l) && truth (critical l) && (warning l <=? critical l))
  || (truth (critical l) && truth (danger l) && (critical l <=? danger l))
  || (truth (full l) && (truth (warning l) || truth (critical l))
      && (full l <=? Z.max (warning l) (critical l)))
  || out_of 0 3600 (multiplier (freq c)).

(** The same with the bound on [full] the source uses when [warning] and
    [critical] are both zero: [danger]. *)
Definition rejected (c : config) : bool :=
  let l := lvl c in
  out_of 0 100 (warning l) || out_of 0 100 (critical l)
  || out_of 0 100 (danger l) || out_of 0 100 (full l)
  || (truth (warning l) && truth (critical l) && (warning l <=? critical l))
  || (truth (critical l) && truth (danger l) && (critical l <=? danger l))
  || (truth (full l)
      && (full l <=? (if truth (warning l) || truth (critical l)
                      then Z.max (warning l) (critical l)
                      else danger l)))
  || out_of 0 3600 (multiplier (freq c)).

(** ** Sample inputs *)

(** A battery with a status and the charge_now / charge_full pair. *)
Definition charge_battery (st : string) (now full : Z) : battery :=
  {| status := Some st;
     charge_now := Number now; charge_full := Number full;
     energy_now_file := Absent; energy_full_file := Absent;
     capacity := Absent |}.

(** A battery that shows only a percentage. *)
Definition capacity_battery (st : string) (percent : Z) : battery :=
  {| status := Some st;
     charge_now := Absent; charge_full := Absent;
     energy_now_file := Absent; energy_full_file := Absent;
     capacity := Number percent |}.

(** A battery whose directory is gone. *)
Definition missing_battery : battery :=
  {| status := None;
     charge_now := Absent; charge_full := Absent;
     energy_now_file := Absent; energy_full_file := Absent;
     capacity := Absent |}.

(** The thresholds and the interval of a configuration, other settings as
    initialised. *)
Definition thresholds (w cr d f m : Z) (fx : bool) : config :=
  with_freq (fun _ => {| multiplier := m; fixed := fx |})
    (with_lvl (fun _ => {| warning := w; critical := cr;
                           danger := d; full := f |})
       initial_config).

(** A reading at the given level. *)
Definition snapshot (level : Z) (discharging is_full : bool) (s : state)
    : battery_info :=
  {| battery_discharging := discharging;
     battery_full := is_full;
     battery_state := s;
     battery_level := level;
     energy_full := 100;
     energy_now := level |}.

(** The turns' events, in order. *)
Definition all_events (ts : list turn) : list event :=
  flat_map events ts.

Definition shows (msg : string) (e : event) : bool :=
  match e with
  | Notification_show summary _ _ _ _ => String.eqb summary msg
  | _ => false
  end.

(** The three parts of the result of a turn. *)
Definition info_of (r : battery_info * list event * Z) : battery_info :=
  fst (fst r).
Definition events_of (r : battery_info * list event * Z) : list event :=
  snd (fst r).
Definition duration_of (r : battery_info * list event * Z) : Z := snd r.

(** The branch of the loop body that is taken, read off the conditions of
    the source in their order. *)
Definition branch (c : config) (previous_discharging_status : bool)
    (b : battery_info) : state :=
  if battery_discharging b then
    if truth (danger (lvl c)) && (battery_level b <=? danger (lvl c))
    then STATE_DANGER
    else if truth (critical (lvl c))
            && (battery_level b <=? critical (lvl c))
    then STATE_CRITICAL
    else if truth (warning (lvl c)) && (battery_level b <=? warning (lvl c))
    then STATE_WARNING
    else STATE_DISCHARGING
  else
    if (truth (full (lvl c)) && negb (state_eqb (battery_state b) STATE_FULL))
       && ((battery_level b >=? full (lvl c)) || battery_full b)
    then STATE_FULL
    else STATE_AC.

(** The three turns of the end-to-end scenario: a battery showing a
    percentage, discharging at 20, 20, 14 and 14 percent. *)
Definition scenario : list turn :=
  let at_level l := [capacity_battery POWER_SUPPLY_DISCHARGING l] in
  fst (monitor initial_config true (at_level 20)
         [at_level 20; at_level 14; at_level 14]).

(** Warning at 15 with critical and danger switched off; the interval
    is 60 seconds and not fixed. *)
Definition warning_only : config := thresholds 15 0 0 0 60 false.

(** The initial configuration after -i. *)
Definition ignore_missing : config :=
  with_op (set_flag Flag_battery_required false) initial_config.

(** A battery whose charge values do not fit an [int]. *)
Definition huge_battery : battery :=
  charge_battery POWER_SUPPLY_DISCHARGING 3000000000 4000000000.

(** The options whose case in [parse_args] sets [fixed] without the
    interval having been given with a plus sign. *)
Definition forces_fixed (o : getopt_result) : bool :=
  match o with
  | Opt_f _ | Opt_p => true
  | _ => false
  end.

(** ** [is_battery] and [find_batteries]

    A directory of /sys/class/power_supply: the word "%10s" reads from
    its [type] file, [None] when the file cannot be opened, and the
    attribute files. *)
Record supply : Type := {
  type_file : option string;
  dir : battery
}.

(** [fopen] followed by [fscanf(file, "%d", &capacity)]. *)
Definition fscanf_d (f : attribute_file) : option Z :=
  match f with
  | Number v => Some (to_int v)
  | _ => None
  end.

(** [type] starts out empty and stays so when the file is missing. *)
Definition is_type_battery (s : supply) : bool :=
  String.eqb (match type_file s with
              | Some word => word
              | None => EmptyString
              end) "Battery".

(** [capacity] starts at -1; it is read from the file when the battery
    shows only a percentage, and set to 1 otherwise. *)
Definition has_capacity_field (s : supply) : bool :=
  let capacity_read :=
    match set_attributes (dir s) with
    | Attr_capacity =>
        match fscanf_d (capacity (dir s)) with
        | Some v => v
        | None => -1
        end
    | _ => 1
    end in
  capacity_read >=? 0.

Definition is_battery (s : supply) : bool :=
  is_type_battery s && has_capacity_field s.

(** How [find_batteries] ends: it returns with the names and their
    number, or ends the process at the name that is no battery, or
    stores a name at an index the block of names does not have. *)
Inductive found : Type :=
| Found (names : list string) (amount : Z)
| Battery_not_found (name : string)
| Stored_outside (index allocated : nat).

(** The loop over the names given with -n, from the names still to
    check.  [battery_name_specified] is true on this path. *)
Fixpoint check_names (required : bool) (entries : list (string * supply))
    : option string :=
  match entries with
  | [] => None
  | (name, s) :: rest =>
      if is_battery s then check_names required rest
      else if true && required then Some name
      else check_names required rest
  end.

(** The loop over the entries [readdir] yields.  Before the name of
    battery number [i] is stored, the block of names is resized to [i]
    pointers; [allocated] is the number of pointers the block holds. *)
Fixpoint read_entries (entries : list (string * supply)) (i : nat)
    (names : list string) : found :=
  match entries with
  | [] => Found names (Z.of_nat i)
  | (name, s) :: rest =>
      if is_battery s then
        let allocated := i in
        if (i <? allocated)%nat
        then read_entries rest (S i) (names ++ [name])
        else Stored_outside i allocated
      else read_entries rest i names
  end.

(** [named] pairs the names of [battery_names] with their directories;
    [listing] is what [opendir] and [readdir] give, [None] when the
    directory cannot be opened.  Without -n no name has been stored
    before the directory is read. *)
Definition find_batteries (c : config) (named : list (string * supply))
    (listing : option (list (string * supply))) : found :=
  if battery_name_specified (op c) then
    match check_names (battery_required (op c)) named with
    | Some name => Battery_not_found name
    | None => Found (battery_names c) (amount_batteries c)
    end
  else
    match listing with
    | Some entries => read_entries entries 0%nat []
    | None => Found (battery_names c) (amount_batteries c)
    end.

(** ** Further notions used in the properties *)

(** The first loop of [split]: one more than the number of delimiters. *)
Fixpoint initial_count (delim : ascii) (s : string) : Z :=
  match s with
  | EmptyString => 1
  | String ch rest =>
      (if Ascii.eqb ch delim then 1 else 0) + initial_count delim rest
  end.

Fixpoint contains (delim : ascii) (s : string) : bool :=
  match s with
  | EmptyString => false
  | String ch rest => Ascii.eqb ch delim || contains delim rest
  end.

(** A name as [strtok] can return it. *)
Definition token (delim : ascii) (s : string) : bool :=
  nonempty s && negb (contains delim s).


Definition says_discharging (bat : battery) : bool :=
  match status bat with
  | Some st => String.eqb st POWER_SUPPLY_DISCHARGING
  | None => false
  end.

(** A battery without a readable status takes nothing from
    [battery_full]. *)
Definition full_or_silent (bat : battery) : bool :=
  match status bat with
  | Some st => String.eqb st POWER_SUPPLY_FULL
  | None => true
  end.

(** The low-battery states in the order of their tests. *)
Definition severity (s : state) : Z :=
  match s with
  | STATE_DANGER => 3
  | STATE_CRITICAL => 2
  | STATE_WARNING => 1
  | _ => 0
  end.

Definition is_show (e : event) : bool :=
  match e with
  | Notification_show _ _ _ _ _ => true
  | _ => false
  end.

(** The options at which [parse_args] leaves the process. *)
Definition exits (o : getopt_result) : option exit_reason :=
  match o with
  | Opt_h => Some Help_printed
  | Opt_v => Some Version_printed
  | Opt_unknown optopt => Some (Unknown_option optopt)
  | Opt_missing optopt => Some (Option_requires_argument optopt)
  | _ => None
  end.

Definition returns (o : getopt_result) : bool :=
  match exits o with
  | Some _ => false
  | None => true
  end.

Definition sets_level (o : getopt_result) : bool :=
  match o with
  | Opt_w _ | Opt_c _ | Opt_d _ | Opt_f _ => true
  | _ => false
  end.

Definition is_Opt_w (o : getopt_result) : bool :=
  match o with
  | Opt_w _ => true
  | _ => false
  end.

(** * Properties *)

(** ** The state left by a turn *)

Lemma state_eqb_eq (a b : state) : state_eqb a b = true <-> a = b.
Proof.
  unfold state_eqb; rewrite Z.eqb_eq; split; [| now intros ->].
  destruct a, b; simpl; intros H; try reflexivity; discriminate H.
Qed.

Lemma truth_true (z : Z) : truth z = true <-> z <> 0.
Proof.
  unfold truth; destruct (Z.eqb_spec z 0); simpl; split; congruence.
Qed.

Lemma truth_false (z : Z) : truth z = false <-> z = 0.
Proof.
  unfold truth; destruct (Z.eqb_spec z 0); simpl; split; congruence.
Qed.

(** Every branch leaves its own state in [battery_state], whether or not
    it had to assign it. *)
Lemma body_state c notification prev b :
  battery_state (info_of (main_loop_body c notification prev b))
  = branch c prev b.
Proof.
  unfold main_loop_body, branch, info_of.
  destruct (battery_discharging b).
  - destruct (truth (danger (lvl c)) && _).
    { destruct (state_eqb (battery_state b) STATE_DANGER) eqn:E; simpl;
        [now apply state_eqb_eq | reflexivity]. }
    destruct (truth (critical (lvl c)) && _).
    { destruct (state_eqb (battery_state b) STATE_CRITICAL) eqn:E; simpl;
        [now apply state_eqb_eq | reflexivity]. }
    destruct (truth (warning (lvl c)) && _).
    { destruct (state_eqb (battery_state b) STATE_WARNING) eqn:E; simpl;
        [now apply state_eqb_eq | reflexivity]. }
    reflexivity.
  - destruct (_ && _ && _); [reflexivity |].
    destruct (show_charging_msg (op c) && _); reflexivity.
Qed.

(** The turn changes nothing of the reading. *)
Lemma body_keeps_reading c notification prev b :
  let b' := info_of (main_loop_body c notification prev b) in
  battery_level b' = battery_level b
  /\ battery_discharging b' = battery_discharging b
  /\ battery_full b' = battery_full b.
Proof.
  unfold main_loop_body, info_of; cbv zeta.
  repeat match goal with
         | |- context [if ?x then _ else _] => destruct x eqn:?
         end; simpl; auto.
Qed.

(** C1.  While discharging, with danger, critical and warning all nonzero
    and danger < critical < warning, the turn leaves the state the
    priority list names: DANGER if level <= danger, else CRITICAL if
    level <= critical, else WARNING if level <= warning, else
    DISCHARGING. *)
Theorem discharging_selects_by_priority c notification prev b :
  battery_discharging b = true ->
  danger (lvl c) <> 0 -> critical (lvl c) <> 0 -> warning (lvl c) <> 0 ->
  danger (lvl c) < critical (lvl c) ->
  critical (lvl c) < warning (lvl c) ->
  battery_state (info_of (main_loop_body c notification prev b))
  = discharging_priority (battery_level b) (lvl c).
Proof.
  intros Hd Hdanger Hcritical Hwarning _ _.
  rewrite body_state; unfold branch, discharging_priority.
  rewrite Hd.
  apply truth_true in Hdanger, Hcritical, Hwarning.
  now rewrite Hdanger, Hcritical, Hwarning.
Qed.

Lemma discharging_selects_by_priority_witness :
  battery_state
    (info_of (main_loop_body initial_config true true
                (snapshot 4 true false STATE_AC)))
  = STATE_CRITICAL.
Proof.
  rewrite (discharging_selects_by_priority initial_config true true
             (snapshot 4 true false STATE_AC));
    simpl; try reflexivity; lia.
Defined.

(** C2.  A threshold set to 0 never selects its branch: the state left by
    a turn is not DANGER when danger is 0, not CRITICAL when critical is
    0, not WARNING when warning is 0, not FULL when full is 0.  With
    danger = 0 and critical = 5, level 1 while discharging leaves
    CRITICAL. *)
Theorem zero_threshold_never_triggers c notification prev b :
  let s := battery_state (info_of (main_loop_body c notification prev b)) in
  (danger (lvl c) = 0 -> s <> STATE_DANGER)
  /\ (critical (lvl c) = 0 -> s <> STATE_CRITICAL)
  /\ (warning (lvl c) = 0 -> s <> STATE_WARNING)
  /\ (full (lvl c) = 0 -> s <> STATE_FULL)
  /\ (danger (lvl c) = 0 -> critical (lvl c) = 5 ->
      battery_level b = 1 -> battery_discharging b = true ->
      s = STATE_CRITICAL).
Proof.
  cbv zeta; rewrite body_state; unfold branch.
  repeat split; intros H; try intros H1 H2 H3;
    try (apply truth_false in H as Ht);
    try rewrite Ht; try rewrite H1, H2, H3; simpl;
    repeat match goal with
           | |- context [if ?x then _ else _] => destruct x
           end; congruence.
Qed.

Lemma zero_threshold_never_triggers_witness :
  battery_state
    (info_of (main_loop_body (thresholds 15 5 0 0 60 false) true true
                (snapshot 1 true false STATE_DANGER)))
  = STATE_CRITICAL.
Proof.
  apply (zero_threshold_never_triggers (thresholds 15 5 0 0 60 false) true
           true (snapshot 1 true false STATE_DANGER)); reflexivity.
Defined.

(** ** Edge-triggered dispatch *)

(** A turn that leaves the state it found, with the discharging flag as
    it was the turn before, fires nothing. *)
Lemma body_quiet c notification prev b :
  battery_state (info_of (main_loop_body c notification prev b))
  = battery_state b ->
  battery_discharging b = prev ->
  filter fires (events_of (main_loop_body c notification prev b)) = [].
Proof.
  intros Hs <-.
  rewrite body_state in Hs; revert Hs.
  unfold branch, main_loop_body, events_of.
  rewrite Bool.eqb_reflx, andb_false_r; cbn [negb].
  destruct (battery_discharging b).
  - destruct (truth (danger (lvl c)) && _).
    { intros Hs; rewrite <- Hs; reflexivity. }
    destruct (truth (critical (lvl c)) && _).
    { intros Hs; rewrite <- Hs; reflexivity. }
    destruct (truth (warning (lvl c)) && _).
    { intros Hs; rewrite <- Hs; reflexivity. }
    intros Hs; rewrite <- Hs; reflexivity.
  - destruct (_ && _ && _) eqn:E.
    + intros Hs; rewrite <- Hs in E; simpl in E.
      now rewrite andb_false_r in E.
    + reflexivity.
Qed.

(** Every turn on record is a turn of the loop body. *)
Lemma main_loop_turns c notification samples :
  forall b,
    Forall (fun t =>
              after t = info_of (main_loop_body c notification
                                   (previous_discharging t) (before t))
              /\ events t = events_of (main_loop_body c notification
                                         (previous_discharging t) (before t))
              /\ duration t = duration_of (main_loop_body c notification
                                             (previous_discharging t)
                                             (before t)))
           (fst (main_loop c notification samples b)).
Proof.
  induction samples as [| bats rest IH]; intros b; simpl.
  - constructor.
  - destruct (update_batteries c bats b) as [b1 | r |]; simpl;
      try constructor.
    destruct (main_loop_body c notification (battery_discharging b) b1)
      as [[b2 evs] d] eqn:E.
    assert (Ht : after {| previous_discharging := battery_discharging b;
                          before := b1; after := b2; events := evs;
                          duration := d; waits := main_loop_wait c d |}
                 = info_of (main_loop_body c notification
                              (battery_discharging b) b1)
                 /\ evs = events_of (main_loop_body c notification
                                       (battery_discharging b) b1)
                 /\ d = duration_of (main_loop_body c notification
                                       (battery_discharging b) b1))
      by (rewrite E; auto).
    destruct (main_loop_wait c d).
    + simpl; constructor; [exact Ht | constructor].
    + specialize (IH b2).
      destruct (main_loop c notification rest b2) as [ts r]; simpl in *.
      constructor; [exact Ht | exact IH].
    + specialize (IH b2).
      destruct (main_loop c notification rest b2) as [ts r]; simpl in *.
      constructor; [exact Ht | exact IH].
Qed.

(** C6.  Dispatch is edge-triggered: in every run of the loop, a turn
    whose state is the state of the turn before, with the discharging
    flag unchanged, fires no notification, no message command and no
    danger command.  With warning = 15, critical = 5, danger = 2 the turns
    at levels 20, 14, 14 leave DISCHARGING, WARNING, WARNING and show the
    warning message once. *)
Theorem dispatch_is_edge_triggered c notification samples b :
  Forall (fun t =>
            battery_state (after t) = battery_state (before t) ->
            battery_discharging (before t) = previous_discharging t ->
            filter fires (events t) = [])
         (fst (main_loop c notification samples b))
  /\ map (fun t => battery_state (after t)) scenario
     = [STATE_DISCHARGING; STATE_WARNING; STATE_WARNING]
  /\ List.length (filter (shows (warningmsg (msgs initial_config)))
                    (all_events scenario)) = 1%nat
  /\ filter fires (all_events scenario)
     = [Notification_show "Battery is low" 14 NOTIFY_URGENCY_NORMAL
          NOTIFY_EXPIRES_NEVER None].
Proof.
  split; [| repeat split; reflexivity].
  eapply Forall_impl; [| apply main_loop_turns].
  intros t (Ha & He & _) Hs Hd.
  rewrite He; apply body_quiet; [now rewrite <- Ha | exact Hd].
Qed.

Lemma dispatch_is_edge_triggered_witness :
  filter fires (events (nth 2 scenario
                          {| previous_discharging := false;
                             before := initial_battery_info;
                             after := initial_battery_info;
                             events := [Notification_close];
                             duration := 0; waits := Break |})) = [].
Proof.
  pose proof (proj1 (dispatch_is_edge_triggered initial_config true
                       (map (fun l => [capacity_battery
                                         POWER_SUPPLY_DISCHARGING l])
                            [20; 14; 14])
                       (snapshot 20 true false STATE_AC))) as H.
  apply Forall_inv_tail, Forall_inv_tail, Forall_inv in H.
  apply H; reflexivity.
Defined.

(** ** Machine integers within range *)

Lemma to_int_small (z : Z) : INT_MIN <= z <= INT_MAX -> to_int z = z.
Proof.
  unfold to_int, INT_MIN, INT_MAX; intros H.
  rewrite Z.mod_small; lia.
Qed.

Lemma to_uint_small (z : Z) : 0 <= z < 2 ^ 32 -> to_uint z = z.
Proof. unfold to_uint; intros H; now apply Z.mod_small. Qed.

Lemma to_int_range (z : Z) : INT_MIN <= to_int z <= INT_MAX.
Proof.
  unfold to_int, INT_MIN, INT_MAX.
  pose proof (Z.mod_pos_bound (z + 2 ^ 31) (2 ^ 32)); lia.
Qed.

(** Storing an [unsigned int] sum in an [int] forgets multiples of 2^32
    only. *)
Lemma to_int_to_uint (z : Z) : to_int (to_uint z) = to_int z.
Proof.
  unfold to_int, to_uint.
  now rewrite Z.add_mod_idemp_l by lia.
Qed.

Lemma to_int_add_uint_l (a b : Z) : to_int (to_uint a + b) = to_int (a + b).
Proof.
  unfold to_int, to_uint.
  rewrite <- Z.add_assoc, Z.add_mod_idemp_l by lia.
  now rewrite Z.add_assoc.
Qed.

Lemma to_int_add_l (a b : Z) : to_int (to_int a + b) = to_int (a + b).
Proof.
  unfold to_int.
  replace ((a + 2 ^ 31) mod 2 ^ 32 - 2 ^ 31 + b + 2 ^ 31)
    with ((a + 2 ^ 31) mod 2 ^ 32 + b) by lia.
  rewrite Z.add_mod_idemp_l by lia.
  f_equal; f_equal; lia.
Qed.

(** ** Options that passed [validate_options] *)

Lemma validated_ranges c :
  validate_options c = Return tt ->
  0 <= warning (lvl c) <= 100 /\ 0 <= critical (lvl c) <= 100
  /\ 0 <= danger (lvl c) <= 100 /\ 0 <= full (lvl c) <= 100
  /\ 0 <= multiplier (freq c) <= 3600.
Proof.
  unfold validate_options, out_of.
  repeat match goal with
         | |- context [if ?x then _ else _] => destruct x eqn:?
         end; try discriminate; intros _.
  repeat match goal with
         | H : _ || _ = false |- _ =>
             apply orb_false_iff in H; destruct H
         end.
  lia.
Qed.

(** ** The delay *)

(** [duration] as the branches of the source set it. *)
Lemma body_duration c notification prev b :
  duration_of (main_loop_body c notification prev b)
  = if fixed (freq c) then to_uint (multiplier (freq c))
    else
      match branch c prev b with
      | STATE_WARNING =>
          to_uint (int_mul (int_sub (battery_level b) (critical (lvl c)))
                     (multiplier (freq c)))
      | STATE_DISCHARGING =>
          to_uint (int_mul (int_sub (battery_level b) (warning (lvl c)))
                     (multiplier (freq c)))
      | _ => to_uint (multiplier (freq c))
      end.
Proof.
  unfold main_loop_body, branch, duration_of.
  destruct (fixed (freq c));
    repeat match goal with
           | |- context [if ?x then _ else _] => destruct x
           end; reflexivity.
Qed.

(** In WARNING and in DISCHARGING the level is not below the threshold
    that is subtracted from it. *)
Lemma branch_above c prev b :
  0 <= battery_level b ->
  0 <= critical (lvl c) -> 0 <= warning (lvl c) ->
  match branch c prev b with
  | STATE_WARNING =>
      critical (lvl c) <= battery_level b
      /\ (critical (lvl c) <> 0 -> critical (lvl c) < battery_level b)
      /\ battery_level b <= warning (lvl c)
  | STATE_DISCHARGING =>
      warning (lvl c) <= battery_level b
      /\ (warning (lvl c) <> 0 -> warning (lvl c) < battery_level b)
  | _ => True
  end.
Proof.
  intros Hl Hc Hw; unfold branch, truth.
  destruct (battery_discharging b).
  - destruct (Z.eqb_spec (danger (lvl c)) 0),
      (Z.eqb_spec (critical (lvl c)) 0),
      (Z.eqb_spec (warning (lvl c)) 0),
      (Z.leb_spec (battery_level b) (danger (lvl c))),
      (Z.leb_spec (battery_level b) (critical (lvl c))),
      (Z.leb_spec (battery_level b) (warning (lvl c)));
      simpl; try exact I; lia.
  - destruct (_ && _ && _); exact I.
Qed.

Lemma adaptive_product (level threshold m : Z) :
  0 <= threshold <= level -> 0 < m -> level * m <= INT_MAX ->
  to_uint (int_mul (int_sub level threshold) m) = (level - threshold) * m.
Proof.
  intros Hx Hm Hfit; unfold int_mul, int_sub, INT_MAX in *.
  assert (0 <= (level - threshold) * m <= level * m) by nia.
  assert (level <= level * m) by nia.
  rewrite (to_int_small (level - threshold))
    by (unfold INT_MIN, INT_MAX; lia).
  rewrite to_int_small by (unfold INT_MIN, INT_MAX; lia).
  apply to_uint_small; lia.
Qed.

(** With validated options, and a level that is not negative and whose
    product with the interval fits an [int], the variable [duration]
    holds the delay of the scheduler contract. *)
Lemma duration_next_delay c notification prev b :
  validate_options c = Return tt ->
  0 <= battery_level b ->
  battery_level b * multiplier (freq c) <= INT_MAX ->
  duration_of (main_loop_body c notification prev b)
  = next_delay (branch c prev b) (battery_level b) c.
Proof.
  intros Hv Hl Hfit.
  destruct (validated_ranges c Hv) as (Hw & Hc & _ & _ & Hm).
  rewrite body_duration; unfold next_delay.
  pose proof (branch_above c prev b Hl (proj1 Hc) (proj1 Hw)) as Hb.
  destruct (fixed (freq c)); simpl.
  { apply to_uint_small; lia. }
  destruct (Z.eqb_spec (multiplier (freq c)) 0) as [E | E].
  - rewrite E; destruct (branch c prev b); unfold int_mul;
      rewrite ?Z.mul_0_r; reflexivity.
  - destruct (branch c prev b);
      try (apply to_uint_small; lia);
      apply adaptive_product; lia.
Qed.



Lemma product_zero (x m : Z) :
  0 <= x -> 0 < m ->
  0 <= x * m /\ (x * m = 0 <-> x = 0) /\ (x <> 0 -> m <= x * m).
Proof. intros Hx Hm; repeat split; intros; nia. Qed.

(** C8, as the source has it.  With options that passed validation, and
    a level that is not negative and whose product with multiplier fits
    an int, the delay is never negative, but nothing floors it: it is 0
    exactly when multiplier is 0, or when fixed is unset and the battery
    is discharging at level 0 with danger and critical both 0; in every
    other case it is at least multiplier.  The level is above critical in
    WARNING only when critical is nonzero. *)
Theorem delay_zero_exactly c notification prev b :
  validate_options c = Return tt ->
  0 <= battery_level b ->
  battery_level b * multiplier (freq c) <= INT_MAX ->
  let d := duration_of (main_loop_body c notification prev b) in
  0 <= d
  /\ (d = 0 <->
      multiplier (freq c) = 0
      \/ (fixed (freq c) = false /\ battery_discharging b = true
          /\ battery_level b = 0
          /\ danger (lvl c) = 0 /\ critical (lvl c) = 0))
  /\ (d <> 0 -> multiplier (freq c) <= d).
Proof.
  intros Hv Hl Hfit d; subst d.
  rewrite (duration_next_delay c notification prev b Hv Hl Hfit).
  destruct (validated_ranges c Hv) as (Hw & Hc & Hd & _ & Hm).
  unfold next_delay, branch, truth.
  destruct (Z.eqb_spec (multiplier (freq c)) 0) as [E | E].
  { rewrite orb_true_r; lia. }
  rewrite orb_false_r.
  destruct (fixed (freq c)); [lia |].
  destruct (battery_discharging b).
  - destruct (Z.eqb_spec (danger (lvl c)) 0),
      (Z.eqb_spec (critical (lvl c)) 0),
      (Z.eqb_spec (warning (lvl c)) 0),
      (Z.leb_spec (battery_level b) (danger (lvl c))),
      (Z.leb_spec (battery_level b) (critical (lvl c))),
      (Z.leb_spec (battery_level b) (warning (lvl c)));
      simpl; try lia;
      match goal with
      | |- context [(?l - ?t) * ?m] =>
          pose proof (product_zero (l - t) m ltac:(lia) ltac:(lia))
      end; intuition lia.
  - destruct (_ && _ && _); intuition (try lia; try discriminate).
Qed.

Lemma delay_zero_exactly_witness :
  60 <= duration_of (main_loop_body initial_config true true
                       (snapshot 10 true false STATE_DISCHARGING)).
Proof.
  destruct (delay_zero_exactly initial_config true true
              (snapshot 10 true false STATE_DISCHARGING))
    as (_ & _ & H); [reflexivity | simpl; lia | vm_compute; discriminate |].
  apply H; vm_compute; discriminate.
Defined.

(** C8, as the specification has it, fails: with warning = 15 and
    critical and danger switched off, a battery discharging at level 0
    is in WARNING and the delay is 0. *)
Lemma delay_not_floored :
  validate_options warning_only = Return tt
  /\ battery_state
       (info_of (main_loop_body warning_only true true
                   (snapshot 0 true false STATE_DISCHARGING)))
     = STATE_WARNING
  /\ duration_of (main_loop_body warning_only true true
                    (snapshot 0 true false STATE_DISCHARGING)) = 0
  /\ ~ 0 < duration_of (main_loop_body warning_only true true
                          (snapshot 0 true false STATE_DISCHARGING)).
Proof.
  repeat split.
  vm_compute; discriminate.
Qed.

(** ** Startup validation *)

Ltac compare_all :=
  repeat match goal with
         | |- context [?a >? ?b] => destruct (Z.gtb_spec a b); simpl
         | |- context [?a <? ?b] => destruct (Z.ltb_spec a b); simpl
         | |- context [?a =? ?b] => destruct (Z.eqb_spec a b); simpl
         | |- context [?a <=? ?b] => destruct (Z.leb_spec a b); simpl
         end.

Lemma validate_accepts c :
  validate_options c = Return tt <-> rejected c = false.
Proof.
  unfold validate_options, rejected, out_of, lowlvl, truth.
  compare_all; split; intros; try congruence; exfalso; lia.
Qed.

Lemma validate_returns_or_fails c :
  validate_options c = Return tt
  \/ exists r, validate_options c = Exit r /\ exit_status r = EXIT_FAILURE.
Proof.
  unfold validate_options.
  repeat match goal with
         | |- context [if ?x then _ else _] => destruct x
         end; auto; right; eexists; split; reflexivity.
Qed.

(** C7, as the source has it.  Validation ends the process with a failure
    exactly when a threshold is outside 0..100, or warning and critical
    are both nonzero with warning <= critical, or critical and danger are
    both nonzero with critical <= danger, or full is nonzero and does not
    exceed the highest nonzero of warning and critical, or danger when
    both are 0, or the interval is outside 0..3600.  warning = 10 with
    critical = 10 is rejected; warning = 15, critical = 5, danger = 2 is
    accepted. *)
Theorem validation_rejects_exactly c :
  ((exists r, validate_options c = Exit r /\ exit_status r = EXIT_FAILURE)
   <-> rejected c = true)
  /\ validate_options (thresholds 10 10 2 0 60 false)
     = Exit Warning_not_above_critical
  /\ validate_options (thresholds 15 5 2 0 60 false) = Return tt.
Proof.
  split; [| split; reflexivity].
  pose proof (validate_accepts c) as Ha.
  destruct (validate_returns_or_fails c) as [Hr | (r & Hr & Hs)].
  - split.
    + intros (r & Hx & _); congruence.
    + intros Hj; apply Ha in Hr; congruence.
  - split.
    + intros _; destruct (rejected c); [reflexivity |].
      assert (validate_options c = Return tt) by now apply Ha.
      congruence.
    + intros _; now exists r.
Qed.

(** C7, as the specification has it, fails: with warning and critical
    both 0 there is no nonzero one of them to compare full with, yet
    full = 2 is refused for not exceeding danger = 2. *)
Lemma full_is_checked_against_danger :
  validate_options (thresholds 0 0 2 2 60 false) = Exit (Full_not_above 2)
  /\ rejected_as_specified (thresholds 0 0 2 2 60 false) = false.
Proof. split; reflexivity. Qed.

(** ** Options that set [fixed] *)

Lemma parse_option_keeps_fixed strtoul o c c' :
  parse_option strtoul o c = Return c' ->
  fixed (freq c) = true -> fixed (freq c') = true.
Proof.
  destruct o; simpl; intros H Hf; try discriminate;
    try (injection H as <-; simpl; now auto).
  destruct optarg as [| [[] [] [] [] [] [] [] []] rest];
    injection H as <-; simpl; auto.
Qed.

Lemma parse_args_keeps_fixed strtoul argv :
  forall c c',
    parse_args strtoul argv c = Return c' ->
    fixed (freq c) = true -> fixed (freq c') = true.
Proof.
  induction argv as [| o rest IH]; simpl; intros c c' H Hf.
  - now injection H as <-.
  - destruct (parse_option strtoul o c) as [c1 | |] eqn:E; try discriminate.
    simpl in H.
    eapply IH; [exact H |].
    eapply parse_option_keeps_fixed; eauto.
Qed.

Lemma parse_option_forces strtoul o c c' :
  forces_fixed o = true ->
  parse_option strtoul o c = Return c' -> fixed (freq c') = true.
Proof.
  destruct o; simpl; intros Hf H; try discriminate;
    injection H as <-; reflexivity.
Qed.

Lemma parse_args_forces strtoul argv :
  forall c c',
    existsb forces_fixed argv = true ->
    parse_args strtoul argv c = Return c' -> fixed (freq c') = true.
Proof.
  induction argv as [| o rest IH]; simpl; intros c c' Hf H;
    [discriminate |].
  destruct (parse_option strtoul o c) as [c1 | |] eqn:E; try discriminate.
  simpl in H.
  apply orb_true_iff in Hf as [Hf | Hf].
  - eapply parse_args_keeps_fixed; [exact H |].
    eapply parse_option_forces; eauto.
  - eapply IH; eauto.
Qed.

(** C10.  When -f or -p is among the options of the configuration file or
    of the command line, the options the program starts with have fixed
    set, and every turn of the loop leaves duration at multiplier: the
    wait, when there is one with a timeout, lasts multiplier seconds. *)
Theorem full_and_charging_options_fix_delay strtoul conf argv c :
  startup strtoul conf argv = Return c ->
  existsb forces_fixed
    (match conf with Some conf_argv => conf_argv | None => [] end ++ argv)
  = true ->
  fixed (freq c) = true
  /\ forall notification prev b,
       duration_of (main_loop_body c notification prev b)
       = multiplier (freq c)
       /\ main_loop_wait c (duration_of (main_loop_body c notification prev b))
          = if run_once (op c) then Break
            else if multiplier (freq c) =? 0 then Sigwaitinfo
            else Sigtimedwait (multiplier (freq c)).
Proof.
  unfold startup; intros Hs Hf.
  destruct (match conf with
            | Some conf_argv => parse_args strtoul conf_argv initial_config
            | None => Return initial_config
            end) as [c1 | |] eqn:E1; try discriminate; simpl in Hs.
  destruct (parse_args strtoul argv c1) as [c2 | |] eqn:E2;
    try discriminate; simpl in Hs.
  destruct (validate_options c2) as [[] | |] eqn:Ev;
    try discriminate; simpl in Hs.
  injection Hs as <-.
  assert (Hfixed : fixed (freq c2) = true).
  { rewrite existsb_app in Hf; apply orb_true_iff in Hf as [Hf | Hf].
    - destruct conf as [conf_argv |]; [| discriminate].
      eapply parse_args_keeps_fixed; [exact E2 |].
      eapply parse_args_forces; eauto.
    - eapply parse_args_forces; eauto. }
  split; [exact Hfixed |].
  intros notification prev b.
  assert (Hd : duration_of (main_loop_body c2 notification prev b)
               = multiplier (freq c2)).
  { rewrite body_duration, Hfixed.
    apply to_uint_small.
    destruct (validated_ranges c2 Ev) as (_ & _ & _ & _ & Hm); lia. }
  split; [exact Hd |].
  now rewrite Hd.
Qed.

Lemma full_and_charging_options_fix_delay_witness :
  duration_of (main_loop_body
                 (with_freq (set_fixed true)
                    (with_lvl (set_full 80) initial_config))
                 true true (snapshot 10 true false STATE_DISCHARGING))
  = 60.
Proof.
  apply (full_and_charging_options_fix_delay (fun _ => 80) None
           [Opt_f "80"]
           (with_freq (set_fixed true)
              (with_lvl (set_full 80) initial_config)));
    reflexivity.
Defined.

(** ** Aggregation *)

Lemma add_assign_uint_sum (e tmp : Z) :
  add_assign_uint e tmp = to_int (e + tmp).
Proof.
  unfold add_assign_uint.
  now rewrite to_int_to_uint, to_int_add_uint_l.
Qed.

Lemma fscanf_u_nonneg f v : fscanf_u f = Some v -> 0 <= v.
Proof.
  destruct f; simpl; intros H; try discriminate.
  injection H as <-; unfold to_uint.
  apply Z.mod_pos_bound; lia.
Qed.

Lemma reading_nonneg attr bat n f :
  reading attr bat = Some (n, f) -> 0 <= n /\ 0 <= f.
Proof.
  unfold reading.
  destruct (status bat); [| discriminate].
  destruct (fscanf_u (now_file attr bat)) as [tmp_now |] eqn:En;
    [| discriminate].
  apply fscanf_u_nonneg in En.
  destruct (full_file attr bat) as [ff |].
  - destruct (fscanf_u ff) as [tmp_full |] eqn:Ef; [| discriminate].
    apply fscanf_u_nonneg in Ef.
    intros H; injection H as <- <-; auto.
  - intros H; injection H as <- <-; lia.
Qed.

Lemma sums_nonneg attr bats :
  0 <= sum_now attr bats /\ 0 <= sum_full attr bats.
Proof.
  induction bats as [| bat rest [IHn IHf]]; simpl; [lia |].
  destruct (reading attr bat) as [[n f] |] eqn:E; [| auto].
  apply reading_nonneg in E; lia.
Qed.

(** The loop adds up what the batteries that are read contribute, in
    [int]; a battery that is not read is passed over unless batteries are
    required. *)
Lemma batteries_loop_sums required attr bats :
  forall i t,
    INT_MIN <= t_energy_now t <= INT_MAX ->
    INT_MIN <= t_energy_full t <= INT_MAX ->
    (required = true -> forallb (readable attr) bats = true) ->
    exists t',
      batteries_loop required attr i bats t = Return t'
      /\ t_energy_now t' = to_int (t_energy_now t + sum_now attr bats)
      /\ t_energy_full t' = to_int (t_energy_full t + sum_full attr bats).
Proof.
  induction bats as [| bat rest IH]; intros i t Hn Hf Hr.
  - exists t; simpl; rewrite !Z.add_0_r, !to_int_small; auto.
  - assert (Hrest : required = true -> forallb (readable attr) rest = true).
    { intros E; specialize (Hr E); simpl in Hr.
      now apply andb_true_iff in Hr. }
    assert (Hbat : required = true -> readable attr bat = true).
    { intros E; specialize (Hr E); simpl in Hr.
      now apply andb_true_iff in Hr. }
    clear Hr; cbn [batteries_loop sum_now sum_full].
    unfold readable, reading in Hbat |- *.
    destruct (status bat) as [st |].
    2: { destruct required; [now specialize (Hbat eq_refl) |].
         exact (IH (S i) t Hn Hf Hrest). }
    destruct (fscanf_u (now_file attr bat)) as [tmp_now |].
    2: { destruct required; [now specialize (Hbat eq_refl) |].
         exact (IH (S i) (see_status st t) Hn Hf Hrest). }
    destruct (full_file attr bat) as [ff |].
    + destruct (fscanf_u ff) as [tmp_full |].
      2: { destruct required; [now specialize (Hbat eq_refl) |].
           exact (IH (S i) (see_status st t) Hn Hf Hrest). }
      destruct (IH (S i) (add_energy tmp_now tmp_full (see_status st t)))
        as (t' & Ht & En & Ef);
        cbn [add_energy see_status t_energy_now t_energy_full];
        rewrite ?add_assign_uint_sum;
        try apply to_int_range; auto.
      exists t'; split; [exact Ht |].
      cbn [add_energy see_status t_energy_now t_energy_full] in En, Ef;
        rewrite add_assign_uint_sum, to_int_add_l in En, Ef.
      rewrite En, Ef, !Z.add_assoc; auto.
    + destruct (IH (S i) (add_energy tmp_now 100 (see_status st t)))
        as (t' & Ht & En & Ef);
        cbn [add_energy see_status t_energy_now t_energy_full];
        rewrite ?add_assign_uint_sum;
        try apply to_int_range; auto.
      exists t'; split; [exact Ht |].
      cbn [add_energy see_status t_energy_now t_energy_full] in En, Ef;
        rewrite add_assign_uint_sum, to_int_add_l in En, Ef.
      rewrite En, Ef, !Z.add_assoc; auto.
Qed.

(** ** Rounding *)

Lemma round_div_pos (p q : Z) :
  0 <= p -> 0 < q -> round_div p q = (2 * p + q) / (2 * q).
Proof.
  intros Hp Hq; unfold round_div.
  rewrite (Z.abs_eq p), (Z.abs_eq q), (Z.sgn_pos q) by lia.
  destruct (Z.eq_dec p 0) as [-> | Hne].
  - rewrite (Z.div_small (2 * 0 + q) (2 * q)) by lia; reflexivity.
  - rewrite Z.sgn_pos by lia; ring.
Qed.

(** [round_div p q] is the integer nearest to [p / q], and of two equally
    near ones the larger: twice its distance to [p / q] is at most 1, and
    less than 1 from above. *)
Lemma round_div_nearest (p q : Z) :
  0 <= p -> 0 < q ->
  2 * p - q < 2 * q * round_div p q <= 2 * p + q.
Proof.
  intros Hp Hq; rewrite round_div_pos by assumption.
  pose proof (Z.mul_div_le (2 * p + q) (2 * q) ltac:(lia)).
  pose proof (Z.mul_succ_div_gt (2 * p + q) (2 * q) ltac:(lia)).
  lia.
Qed.

(** Rounding is symmetric about zero, so halfway cases go away from it on
    both sides. *)
Lemma round_div_opp (p q : Z) : round_div (- p) q = - round_div p q.
Proof.
  unfold round_div; rewrite Z.sgn_opp, Z.abs_opp; ring.
Qed.

Lemma round_div_nonneg (p q : Z) : 0 <= p -> 0 < q -> 0 <= round_div p q.
Proof.
  intros Hp Hq; pose proof (round_div_nearest p q Hp Hq); nia.
Qed.

Lemma round_div_percent (n f : Z) :
  0 <= n <= f -> 0 < f -> 0 <= round_div (100 * n) f <= 100.
Proof.
  intros Hn Hf.
  pose proof (round_div_nearest (100 * n) f ltac:(lia) Hf).
  split; [apply round_div_nonneg; lia | nia].
Qed.

(** ** The level [update_batteries] stores *)

Lemma update_batteries_level c first rest b :
  let bats := first :: rest in
  let attr := set_attributes first in
  (battery_required (op c) = true -> forallb (readable attr) bats = true) ->
  0 < sum_full attr bats <= INT_MAX ->
  sum_now attr bats <= INT_MAX ->
  round_div (100 * sum_now attr bats) (sum_full attr bats) <= INT_MAX ->
  exists b',
    update_batteries c bats b = Return b'
    /\ battery_level b'
       = round_div (100 * sum_now attr bats) (sum_full attr bats)
    /\ energy_now b' = sum_now attr bats
    /\ energy_full b' = sum_full attr bats
    /\ battery_state b' = battery_state b.
Proof.
  intros bats attr Hr Hf Hn Hround.
  destruct (sums_nonneg attr bats) as [Hn0 _].
  destruct (batteries_loop_sums (battery_required (op c)) attr bats 0%nat
              totals_start)
    as (t & Ht & En & Ef);
    try (unfold INT_MIN, INT_MAX; simpl; lia); [exact Hr |].
  cbn [totals_start t_energy_now t_energy_full] in En, Ef.
  rewrite Z.add_0_l, to_int_small in En, Ef
    by (unfold INT_MIN, INT_MAX in *; lia).
  change (update_batteries c bats b)
    with (bind (batteries_loop (battery_required (op c)) attr 0%nat bats
                  totals_start)
               (store_level b)).
  rewrite Ht; cbn [bind]; unfold store_level, level_of; rewrite En, Ef.
  set (N := sum_now attr bats) in *.
  set (F := sum_full attr bats) in *.
  destruct (Z.eqb_spec F 0) as [E | _]; [lia |].
  assert (Hin : in_int (round_div (100 * N) F) = true).
  { unfold in_int; apply andb_true_iff; split; apply Z.leb_le;
      [| exact Hround].
    pose proof (round_div_nonneg (100 * N) F ltac:(lia) ltac:(lia)).
    unfold INT_MIN; lia. }
  rewrite Hin; eexists; repeat split; simpl; auto.
Qed.

(** C3, as the source has it.  When the batteries that are read, through
    the attribute names of the first one, add up to a positive full-value
    and both sums and the rounded quotient fit an int (below 2^31),
    [update_batteries] stores the level round(100 * energy_now /
    energy_full), halfway cases rounded away from zero, with energy_now
    and energy_full the sums of the now-values and full-values; the level
    is within one half of the quotient, one half included from below
    only. *)
Theorem level_is_rounded_ratio c first rest b :
  let bats := first :: rest in
  let attr := set_attributes first in
  (battery_required (op c) = true -> forallb (readable attr) bats = true) ->
  0 < sum_full attr bats <= INT_MAX ->
  sum_now attr bats <= INT_MAX ->
  round_div (100 * sum_now attr bats) (sum_full attr bats) <= INT_MAX ->
  exists b',
    update_batteries c bats b = Return b'
    /\ battery_level b'
       = round_div (100 * sum_now attr bats) (sum_full attr bats)
    /\ 200 * sum_now attr bats - sum_full attr bats
       < 2 * sum_full attr bats * battery_level b'
       <= 200 * sum_now attr bats + sum_full attr bats.
Proof.
  intros bats attr Hr Hf Hn Hround.
  destruct (update_batteries_level c first rest b Hr Hf Hn Hround)
    as (b' & Hu & Hl & _).
  fold bats in Hu, Hl; fold attr in Hl.
  exists b'; split; [exact Hu |]; split; [exact Hl |].
  rewrite Hl.
  pose proof (sums_nonneg attr bats) as [Hn0 _].
  set (N := sum_now attr bats) in *.
  set (F := sum_full attr bats) in *.
  pose proof (round_div_nearest (100 * N) F ltac:(lia) ltac:(lia)).
  lia.
Qed.

Lemma level_is_rounded_ratio_witness :
  exists b',
    update_batteries initial_config
      [charge_battery "Discharging" 50 100;
       charge_battery "Discharging" 30 100] initial_battery_info
    = Return b'
    /\ battery_level b' = 40.
Proof.
  destruct (level_is_rounded_ratio initial_config
              (charge_battery "Discharging" 50 100)
              [charge_battery "Discharging" 30 100] initial_battery_info)
    as (b' & Hu & Hl & _).
  - reflexivity.
  - vm_compute; split; [reflexivity | discriminate].
  - vm_compute; discriminate.
  - vm_compute; discriminate.
  - exists b'; split; [exact Hu | rewrite Hl; reflexivity].
Defined.

(** C3, as the specification has it, fails: one battery with
    charge_now = 3000000000 and charge_full = 4000000000 has a positive
    full-value and a ratio of 75 percent, and the level stored is 439,
    the sums having wrapped around in [int].  With charge_now = 2^31 - 1
    and charge_full = 1 nothing wraps, and the quotient is too large for
    [battery_level]. *)
Lemma level_wraps_around :
  0 < sum_full (set_attributes huge_battery) [huge_battery]
  /\ round_div (100 * sum_now (set_attributes huge_battery) [huge_battery])
       (sum_full (set_attributes huge_battery) [huge_battery]) = 75
  /\ (exists b',
        update_batteries initial_config [huge_battery] initial_battery_info
        = Return b'
        /\ battery_level b' = 439
        /\ battery_level b'
           <> round_div
                (100 * sum_now (set_attributes huge_battery) [huge_battery])
                (sum_full (set_attributes huge_battery) [huge_battery]))
  /\ update_batteries initial_config
       [charge_battery "Discharging" 2147483647 1] initial_battery_info
     = Undefined.
Proof.
  split; [reflexivity |]; split; [reflexivity |]; split; [| reflexivity].
  eexists; split; [reflexivity |]; split; [reflexivity |].
  vm_compute; discriminate.
Qed.

(** C9, as the source has it.  When the batteries that are read add up to
    a positive full-value below 2^31 and to a now-value that does not
    exceed it, the level [update_batteries] stores is in 0..100. *)
Theorem level_within_percent c first rest b :
  let bats := first :: rest in
  let attr := set_attributes first in
  (battery_required (op c) = true -> forallb (readable attr) bats = true) ->
  0 < sum_full attr bats <= INT_MAX ->
  sum_now attr bats <= sum_full attr bats ->
  exists b',
    update_batteries c bats b = Return b'
    /\ 0 <= battery_level b' <= 100.
Proof.
  intros bats attr Hr Hf Hn.
  pose proof (sums_nonneg attr bats) as [Hn0 _].
  pose proof (round_div_percent (sum_now attr bats) (sum_full attr bats)
                ltac:(lia) ltac:(lia)) as Hp.
  destruct (update_batteries_level c first rest b Hr Hf)
    as (b' & Hu & Hl & _).
  - fold bats attr; lia.
  - fold bats attr; unfold INT_MAX in *; lia.
  - fold bats in Hu, Hl; fold attr in Hl.
    exists b'; split; [exact Hu | rewrite Hl; exact Hp].
Qed.

Lemma level_within_percent_witness :
  exists b',
    update_batteries initial_config
      [capacity_battery "Discharging" 14] initial_battery_info
    = Return b'
    /\ 0 <= battery_level b' <= 100.
Proof.
  apply (level_within_percent initial_config
           (capacity_battery "Discharging" 14) [] initial_battery_info).
  - reflexivity.
  - vm_compute; split; [reflexivity | discriminate].
  - vm_compute; discriminate.
Defined.

(** C9, as the specification has it, fails: a battery whose charge_now,
    110, is above its charge_full, 100, gives level 110. *)
Lemma level_above_hundred :
  exists b',
    update_batteries initial_config
      [charge_battery "Charging" 110 100] initial_battery_info
    = Return b'
    /\ battery_level b' = 110
    /\ ~ (0 <= battery_level b' <= 100).
Proof.
  eexists; split; [reflexivity |]; split; [reflexivity |].
  vm_compute; intros [_ H]; now apply H.
Qed.

(** ** Zero capacity *)

(** Whenever the loop leaves [energy_full] at 0 the division is by zero
    and nothing defined is stored: the process goes on, it does not end
    with an error. *)
Lemma store_level_zero_capacity b t :
  t_energy_full t = 0 -> store_level b t = Undefined.
Proof. unfold store_level, level_of; now intros ->. Qed.

(** C4.  The source at two inputs with zero total capacity: with -i and a
    battery whose files cannot be read, and with a required battery that
    reports charge_full = 0.  Where the claim has a fatal error the
    source divides by zero: the result is not an exit, it is undefined. *)
Theorem zero_capacity_is_not_guarded :
  update_batteries ignore_missing [missing_battery] initial_battery_info
  = Undefined
  /\ update_batteries initial_config [charge_battery "Discharging" 0 0]
       initial_battery_info
     = Undefined
  /\ (forall r,
        update_batteries ignore_missing [missing_battery]
          initial_battery_info <> Exit r)
  /\ update_batteries initial_config [missing_battery] initial_battery_info
     = Exit (Could_not_read 0 "status").
Proof.
  repeat split; try reflexivity.
  intros r; vm_compute; discriminate.
Qed.

(** * Further properties of the source *)

(** Closes a bound between numerals. *)
Ltac bounds :=
  first [ reflexivity
        | unfold INT_MAX; lia
        | vm_compute; repeat split; discriminate ].

(** ** What [update_batteries] reports besides the level *)

Lemma batteries_loop_flags required attr bats :
  forall i t t',
    batteries_loop required attr i bats t = Return t' ->
    t_discharging t' = t_discharging t || existsb says_discharging bats
    /\ t_full t' = t_full t && forallb full_or_silent bats.
Proof.
  induction bats as [| bat rest IH]; intros i t t' H.
  - simpl in H; injection H as <-; simpl.
    now rewrite orb_false_r, andb_true_r.
  - cbn [batteries_loop] in H.
    cbn [existsb forallb]; unfold says_discharging, full_or_silent.
    destruct (status bat) as [st |].
    2: { destruct required; [discriminate |].
         apply IH in H; exact H. }
    assert (Hstep : forall t1,
               t_discharging t1
               = t_discharging t || String.eqb st POWER_SUPPLY_DISCHARGING ->
               t_full t1 = t_full t && String.eqb st POWER_SUPPLY_FULL ->
               batteries_loop required attr (S i) rest t1 = Return t' ->
               t_discharging t'
               = t_discharging t
                 || (String.eqb st POWER_SUPPLY_DISCHARGING
                     || existsb says_discharging rest)
               /\ t_full t'
                  = t_full t
                    && (String.eqb st POWER_SUPPLY_FULL
                        && forallb full_or_silent rest)).
    { intros t1 Hd Hf H1; apply IH in H1 as [H1 H2].
      rewrite H1, H2, Hd, Hf.
      now rewrite orb_assoc, andb_assoc. }
    destruct (fscanf_u (now_file attr bat)) as [tmp_now |].
    2: { destruct required; [discriminate |].
         now apply (Hstep (see_status st t)). }
    destruct (full_file attr bat) as [ff |].
    + destruct (fscanf_u ff) as [tmp_full |].
      2: { destruct required; [discriminate |].
           now apply (Hstep (see_status st t)). }
      now apply (Hstep (add_energy tmp_now tmp_full (see_status st t))).
    + now apply (Hstep (add_energy tmp_now 100 (see_status st t))).
Qed.

(** X1.  When [update_batteries] returns, the discharging flag is set
    exactly when some battery with a readable status says "Discharging",
    and the full flag exactly when every battery with a readable status
    says "Full"; a battery whose energy files are skipped still counts
    with its status. *)
Theorem flags_are_or_and_and c bats b b' :
  update_batteries c bats b = Return b' ->
  battery_discharging b' = existsb says_discharging bats
  /\ battery_full b' = forallb full_or_silent bats
  /\ battery_state b' = battery_state b.
Proof.
  unfold update_batteries.
  destruct bats as [| first rest]; [discriminate |].
  destruct (batteries_loop (battery_required (op c)) (set_attributes first)
              0%nat (first :: rest) totals_start) as [t | |] eqn:E;
    try discriminate.
  cbn [bind]; unfold store_level.
  destruct (level_of (t_energy_now t) (t_energy_full t)); [| discriminate].
  intros H; injection H as <-; cbn.
  apply batteries_loop_flags in E as [Hd Hf].
  rewrite Hd, Hf; auto.
Qed.

Lemma flags_are_or_and_and_witness :
  exists b',
    update_batteries ignore_missing
      [charge_battery "Full" 90 100;
       {| status := Some "Discharging"%string;
          charge_now := Absent; charge_full := Absent;
          energy_now_file := Absent; energy_full_file := Absent;
          capacity := Number 50 |}]
      initial_battery_info = Return b'
    /\ battery_discharging b' = true /\ battery_full b' = false
    /\ battery_level b' = 90.
Proof.
  eexists; split; [reflexivity |].
  destruct (flags_are_or_and_and ignore_missing
              [charge_battery "Full" 90 100;
               {| status := Some "Discharging"%string;
                  charge_now := Absent; charge_full := Absent;
                  energy_now_file := Absent; energy_full_file := Absent;
                  capacity := Number 50 |}]
              initial_battery_info _ eq_refl) as (Hd & Hf & _).
  rewrite Hd, Hf; repeat split.
Defined.

(** ** Unreadable batteries *)

Lemma batteries_loop_ignores attr bats :
  forall i t r, batteries_loop false attr i bats t <> Exit r.
Proof.
  induction bats as [| bat rest IH]; intros i t r; cbn [batteries_loop].
  - discriminate.
  - repeat match goal with
           | |- context [match ?x with _ => _ end] => destruct x
           end; apply IH.
Qed.

(** X2.  With -i ([battery_required] false) [update_batteries] never
    ends the process, whatever the batteries show. *)
Theorem ignoring_never_exits c bats b r :
  battery_required (op c) = false ->
  update_batteries c bats b <> Exit r.
Proof.
  intros Hr; unfold update_batteries; rewrite Hr.
  destruct bats as [| first rest]; [discriminate |].
  destruct (batteries_loop false (set_attributes first) 0%nat
              (first :: rest) totals_start) as [t | r' |] eqn:E; cbn [bind].
  - unfold store_level; destruct (level_of _ _); discriminate.
  - now apply batteries_loop_ignores in E.
  - discriminate.
Qed.

Lemma ignoring_never_exits_witness :
  update_batteries ignore_missing [missing_battery] initial_battery_info
  <> Exit (Could_not_read 0 "status").
Proof.
  apply (ignoring_never_exits ignore_missing [missing_battery]
           initial_battery_info); reflexivity.
Defined.




(** ** The level of a single battery *)

Lemma to_uint_int (z : Z) : 0 <= z <= INT_MAX -> to_uint z = z.
Proof.
  unfold INT_MAX; intros H; apply to_uint_small; lia.
Qed.

Lemma single_charge_level c st n f b :
  0 <= n <= INT_MAX -> 0 < f <= INT_MAX ->
  round_div (100 * n) f <= INT_MAX ->
  exists b',
    update_batteries c [charge_battery st n f] b = Return b'
    /\ battery_level b' = round_div (100 * n) f.
Proof.
  intros Hn Hf Hr.
  destruct (update_batteries_level c (charge_battery st n f) [] b)
    as (b' & Hu & Hl & _);
    cbn [set_attributes charge_battery charge_now access forallb readable
         reading status now_file full_file charge_full fscanf_u sum_now
         sum_full andb];
    rewrite ?(to_uint_int n), ?(to_uint_int f), ?Z.add_0_r by lia;
    auto; try lia.
  exists b'; split; [exact Hu |].
  revert Hl.
  cbn [set_attributes charge_battery charge_now access readable
       reading status now_file full_file charge_full fscanf_u sum_now
       sum_full].
  now rewrite (to_uint_int n), (to_uint_int f), !Z.add_0_r by lia.
Qed.

Lemma round_div_percentage (p : Z) : 0 <= p -> round_div (100 * p) 100 = p.
Proof.
  intros Hp; rewrite round_div_pos by lia.
  replace (2 * (100 * p) + 100) with (p * (2 * 100) + 100) by ring.
  rewrite Z.div_add_l by lia.
  now rewrite Z.div_small, Z.add_0_r by lia.
Qed.

(** X4.  A single battery that shows only a percentage (no charge_now,
    no energy_now) gives that percentage as the level, whatever it is
    within int, and 100 as [energy_full]. *)
Theorem percentage_passes_through c st p b :
  0 <= p <= INT_MAX ->
  exists b',
    update_batteries c [capacity_battery st p] b = Return b'
    /\ battery_level b' = p
    /\ energy_full b' = 100.
Proof.
  intros Hp.
  destruct (update_batteries_level c (capacity_battery st p) [] b)
    as (b' & Hu & Hl & _ & Hf & _);
    cbn [set_attributes capacity_battery charge_now energy_now_file access
         forallb readable reading status now_file full_file capacity
         fscanf_u sum_now sum_full andb];
    rewrite ?(to_uint_int p), ?Z.add_0_r, ?round_div_percentage by lia;
    auto; try (unfold INT_MAX in *; lia).
  exists b'; split; [exact Hu |].
  revert Hl Hf.
  cbn [set_attributes capacity_battery charge_now energy_now_file access
       readable reading status now_file full_file capacity fscanf_u
       sum_now sum_full].
  rewrite (to_uint_int p), !Z.add_0_r, round_div_percentage by lia.
  auto.
Qed.

Lemma percentage_passes_through_witness :
  exists b',
    update_batteries initial_config [capacity_battery "Charging" 101]
      initial_battery_info = Return b'
    /\ battery_level b' = 101
    /\ energy_full b' = 100.
Proof.
  apply (percentage_passes_through initial_config "Charging" 101
           initial_battery_info).
  vm_compute; split; discriminate.
Defined.

Lemma round_div_monotone (p1 p2 q : Z) :
  0 <= p1 <= p2 -> 0 < q -> round_div p1 q <= round_div p2 q.
Proof.
  intros Hp Hq; rewrite !round_div_pos by lia.
  apply Z.div_le_mono; lia.
Qed.

(** X5.  For a battery with charge files, more charge at the same full
    charge never gives a lower level, as long as the values fit an int. *)
Theorem level_grows_with_charge c st n1 n2 f b :
  0 <= n1 <= n2 -> n2 <= INT_MAX -> 0 < f <= INT_MAX ->
  round_div (100 * n2) f <= INT_MAX ->
  exists b1 b2,
    update_batteries c [charge_battery st n1 f] b = Return b1
    /\ update_batteries c [charge_battery st n2 f] b = Return b2
    /\ battery_level b1 <= battery_level b2.
Proof.
  intros Hn Hn2 Hf Hr.
  pose proof (round_div_monotone (100 * n1) (100 * n2) f
                ltac:(lia) ltac:(lia)) as Hm.
  destruct (single_charge_level c st n1 f b) as (b1 & H1 & L1);
    try lia.
  destruct (single_charge_level c st n2 f b) as (b2 & H2 & L2);
    try lia.
  exists b1, b2; repeat split; auto; lia.
Qed.

Lemma level_grows_with_charge_witness :
  exists b1 b2,
    update_batteries initial_config [charge_battery "Charging" 1499 10000]
      initial_battery_info = Return b1
    /\ update_batteries initial_config
         [charge_battery "Charging" 1500 10000]
         initial_battery_info = Return b2
    /\ battery_level b1 <= battery_level b2.
Proof.
  apply (level_grows_with_charge initial_config "Charging" 1499 1500 10000
           initial_battery_info); bounds.
Defined.

Lemma round_div_scale (k p q : Z) :
  0 < k -> 0 <= p -> 0 < q -> round_div (k * p) (k * q) = round_div p q.
Proof.
  intros Hk Hp Hq; rewrite !round_div_pos by nia.
  replace (2 * (k * p) + k * q) with (k * (2 * p + q)) by ring.
  replace (2 * (k * q)) with (k * (2 * q)) by ring.
  apply Z.div_mul_cancel_l; lia.
Qed.

(** X6.  The level depends on the ratio only: charge files that give both
    values in a unit [k] times smaller give the same level, as long as
    the values fit an int. *)
Theorem level_ignores_unit c st k n f b :
  0 < k -> 0 <= n -> 0 < f ->
  k * n <= INT_MAX -> k * f <= INT_MAX ->
  round_div (100 * n) f <= INT_MAX ->
  exists b1 b2,
    update_batteries c [charge_battery st n f] b = Return b1
    /\ update_batteries c [charge_battery st (k * n) (k * f)] b = Return b2
    /\ battery_level b2 = battery_level b1.
Proof.
  intros Hk Hn Hf Hkn Hkf Hr.
  assert (n <= k * n) by nia.
  assert (f <= k * f) by nia.
  pose proof (round_div_scale k (100 * n) f Hk ltac:(lia) Hf) as Hs.
  replace (k * (100 * n)) with (100 * (k * n)) in Hs by ring.
  destruct (single_charge_level c st n f b) as (b1 & H1 & L1); try lia.
  destruct (single_charge_level c st (k * n) (k * f) b)
    as (b2 & H2 & L2); try nia; try lia.
  exists b1, b2; repeat split; auto; lia.
Qed.

Lemma level_ignores_unit_witness :
  exists b1 b2,
    update_batteries initial_config [charge_battery "Charging" 33 70]
      initial_battery_info = Return b1
    /\ update_batteries initial_config
         [charge_battery "Charging" (1000 * 33) (1000 * 70)]
         initial_battery_info = Return b2
    /\ battery_level b2 = battery_level b1.
Proof.
  apply (level_ignores_unit initial_config "Charging" 1000 33 70
           initial_battery_info); bounds.
Defined.

(** ** States and levels *)

(** X7.  While discharging, a lower level never leaves a less severe
    state: the states DISCHARGING, WARNING, CRITICAL, DANGER are reached
    in this order as the level falls, for any configuration and whatever
    the states before. *)
Theorem lower_level_is_no_less_severe c notification prev1 prev2 b1 b2 :
  battery_discharging b1 = true -> battery_discharging b2 = true ->
  battery_level b1 <= battery_level b2 ->
  severity (battery_state
              (info_of (main_loop_body c notification prev2 b2)))
  <= severity (battery_state
                 (info_of (main_loop_body c notification prev1 b1))).
Proof.
  intros H1 H2 Hl; rewrite !body_state; unfold branch, truth.
  rewrite H1, H2.
  compare_all; simpl; lia.
Qed.

Lemma lower_level_is_no_less_severe_witness :
  severity (battery_state
              (info_of (main_loop_body initial_config true true
                          (snapshot 9 true false STATE_AC))))
  <= severity (battery_state
                 (info_of (main_loop_body initial_config true true
                             (snapshot 3 true false STATE_WARNING)))).
Proof.
  apply (lower_level_is_no_less_severe initial_config true true true
           (snapshot 3 true false STATE_WARNING)
           (snapshot 9 true false STATE_AC)); bounds.
Defined.

(** X8.  The state a turn leaves depends on the state before it only
    through whether that state was FULL, and not at all on the
    discharging flag of the turn before. *)
Theorem state_remembers_full_only c notification prev1 prev2 b1 b2 :
  battery_level b1 = battery_level b2 ->
  battery_discharging b1 = battery_discharging b2 ->
  battery_full b1 = battery_full b2 ->
  state_eqb (battery_state b1) STATE_FULL
  = state_eqb (battery_state b2) STATE_FULL ->
  battery_state (info_of (main_loop_body c notification prev1 b1))
  = battery_state (info_of (main_loop_body c notification prev2 b2)).
Proof.
  intros Hl Hd Hf Hs; rewrite !body_state; unfold branch.
  now rewrite Hl, Hd, Hf, Hs.
Qed.

Lemma state_remembers_full_only_witness :
  battery_state (info_of (main_loop_body initial_config true true
                            (snapshot 4 true false STATE_AC)))
  = battery_state (info_of (main_loop_body initial_config true false
                              (snapshot 4 true false STATE_DANGER))).
Proof.
  apply (state_remembers_full_only initial_config true true false
           (snapshot 4 true false STATE_AC)
           (snapshot 4 true false STATE_DANGER)); reflexivity.
Defined.

(** ** The full-battery message *)





(** ** What a run sends *)

(** What a turn does is nothing, or closing the notification, or the
    danger command, or one call of [update_notification]. *)
Lemma body_events_cases c notification prev b :
  let evs := events_of (main_loop_body c notification prev b) in
  evs = []
  \/ evs = [Notification_close]
  \/ (evs = [Danger_command (dangercmd (msgs c))]
      /\ nonempty (dangercmd (msgs c)) = true)
  \/ exists msg u, evs = update_notification c b msg u notification.
Proof.
  unfold main_loop_body, events_of; cbv zeta.
  repeat match goal with
         | |- context [if ?x then _ else _] => destruct x eqn:?
         end; cbn [fst snd]; eauto 10.
Qed.

Lemma update_notification_shows_nothing c b msg u notification :
  show_notifications (op c) = false \/ notification = false ->
  filter is_show (update_notification c b msg u notification) = [].
Proof.
  intros H; unfold update_notification.
  assert (E : notification && show_notifications (op c) && nonempty msg
              = false).
  { destruct H as [-> | ->]; [now rewrite andb_false_r | reflexivity]. }
  rewrite E, app_nil_r.
  now destruct (nonempty (msgcmd (msgs c))).
Qed.

(** X10.  With -N ([show_notifications] false), or when no notification
    object could be made, no turn of any run shows a desktop
    notification. *)
Theorem no_desktop_notification c notification samples b :
  show_notifications (op c) = false \/ notification = false ->
  Forall (fun t => filter is_show (events t) = [])
         (fst (main_loop c notification samples b)).
Proof.
  intros H.
  eapply Forall_impl; [| apply main_loop_turns].
  intros t (_ & He & _); rewrite He.
  destruct (body_events_cases c notification (previous_discharging t)
              (before t)) as [E | [E | [[E _] | (msg & u & E)]]];
    rewrite E; try reflexivity.
  now apply update_notification_shows_nothing.
Qed.

Lemma no_desktop_notification_witness :
  Forall (fun t => filter is_show (events t) = [])
         (fst (main_loop
                 (with_op (set_flag Flag_show_notifications false)
                    initial_config)
                 false
                 [[capacity_battery "Discharging" 14];
                  [capacity_battery "Discharging" 4]]
                 initial_battery_info)).
Proof.
  apply (no_desktop_notification
           (with_op (set_flag Flag_show_notifications false) initial_config)
           false).
  left; reflexivity.
Defined.

(** X11.  With -N, no message command and no danger command, a run does
    nothing to the outside but close the notification. *)
Theorem silent_configuration c notification samples b :
  show_notifications (op c) = false ->
  nonempty (msgcmd (msgs c)) = false ->
  nonempty (dangercmd (msgs c)) = false ->
  Forall (fun t => filter fires (events t) = [])
         (fst (main_loop c notification samples b)).
Proof.
  intros Hn Hm Hd.
  eapply Forall_impl; [| apply main_loop_turns].
  intros t (_ & He & _); rewrite He.
  destruct (body_events_cases c notification (previous_discharging t)
              (before t)) as [E | [E | [[E Hd'] | (msg & u & E)]]];
    rewrite E; try reflexivity.
  - congruence.
  - unfold update_notification; rewrite Hm, Hn, andb_false_r.
    reflexivity.
Qed.

Lemma silent_configuration_witness :
  Forall (fun t => filter fires (events t) = [])
         (fst (main_loop
                 (with_op (set_flag Flag_show_notifications false)
                    initial_config)
                 true
                 [[capacity_battery "Discharging" 14];
                  [capacity_battery "Discharging" 1]]
                 initial_battery_info)).
Proof.
  apply (silent_configuration
           (with_op (set_flag Flag_show_notifications false) initial_config)
           true); reflexivity.
Defined.

(** ** How long a run is *)

Lemma main_loop_once c notification samples b :
  run_once (op c) = true ->
  (List.length (fst (main_loop c notification samples b)) <= 1)%nat.
Proof.
  intros Ho; destruct samples as [| bats rest]; simpl; [lia |].
  destruct (update_batteries c bats b) as [b1 | r |]; simpl; try lia.
  destruct (main_loop_body c notification (battery_discharging b) b1)
    as [[b2 evs] d].
  unfold main_loop_wait; rewrite Ho; simpl; lia.
Qed.

Lemma main_loop_goes_on c notification samples :
  forall b b',
    run_once (op c) = false ->
    snd (main_loop c notification samples b) = Return b' ->
    List.length (fst (main_loop c notification samples b))
    = List.length samples.
Proof.
  induction samples as [| bats rest IH]; intros b b' Ho H; [reflexivity |].
  cbn [main_loop] in *.
  destruct (update_batteries c bats b) as [b1 | r |]; try discriminate.
  destruct (main_loop_body c notification (battery_discharging b) b1)
    as [[b2 evs] d].
  specialize (IH b2 b' Ho).
  unfold main_loop_wait in H |- *; rewrite Ho in H |- *.
  destruct (multiplier (freq c) =? 0);
    destruct (main_loop c notification rest b2) as [ts r];
    cbn [fst snd List.length] in *; now rewrite IH.
Qed.

(** X12.  With -o the loop is left after the first turn, however many
    readings there would be; without -o the loop is never left by the
    program itself: as long as [update_batteries] returns, every reading
    gets its turn. *)
Theorem run_once_is_one_turn c notification samples b :
  (run_once (op c) = true ->
   (List.length (fst (main_loop c notification samples b)) <= 1)%nat)
  /\ (run_once (op c) = false ->
      forall b',
        snd (main_loop c notification samples b) = Return b' ->
        List.length (fst (main_loop c notification samples b))
        = List.length samples).
Proof.
  split; [apply main_loop_once |].
  intros Ho b'; now apply main_loop_goes_on.
Qed.

Lemma run_once_is_one_turn_witness :
  (List.length
     (fst (main_loop (with_op (set_flag Flag_run_once true) initial_config)
             true
             [[capacity_battery "Discharging" 14];
              [capacity_battery "Discharging" 4]]
             initial_battery_info)) <= 1)%nat.
Proof.
  apply (run_once_is_one_turn
           (with_op (set_flag Flag_run_once true) initial_config) true).
  reflexivity.
Defined.

(** ** An upper bound on the delay *)

(** X13.  With options that passed validation and a level in 0..100, the
    delay of a turn is at most 100 times the interval, hence at most
    360000 seconds. *)
Theorem delay_is_bounded c notification prev b :
  validate_options c = Return tt ->
  0 <= battery_level b <= 100 ->
  0 <= duration_of (main_loop_body c notification prev b)
    <= 100 * multiplier (freq c)
  /\ 100 * multiplier (freq c) <= 360000.
Proof.
  intros Hv Hl.
  destruct (validated_ranges c Hv) as (Hw & Hc & _ & _ & Hm).
  rewrite (duration_next_delay c notification prev b Hv (proj1 Hl))
    by (unfold INT_MAX; nia).
  pose proof (branch_above c prev b (proj1 Hl) (proj1 Hc) (proj1 Hw)) as Hb.
  unfold next_delay.
  destruct (fixed (freq c) || (multiplier (freq c) =? 0)); [lia |].
  destruct (branch c prev b); try lia; nia.
Qed.

Lemma delay_is_bounded_witness :
  duration_of (main_loop_body initial_config true true
                 (snapshot 100 true false STATE_AC)) <= 100 * 60.
Proof.
  apply (delay_is_bounded initial_config true true
           (snapshot 100 true false STATE_AC)); bounds.
Defined.

(** ** Option lists *)

Lemma parse_args_app strtoul a :
  forall b c,
    parse_args strtoul (a ++ b) c
    = bind (parse_args strtoul a c) (parse_args strtoul b).
Proof.
  induction a as [| o rest IH]; intros b c; [reflexivity |].
  cbn [app parse_args].
  destruct (parse_option strtoul o c) as [c1 | r |]; cbn [bind];
    [apply IH | reflexivity | reflexivity].
Qed.

(** X14.  Reading the options of the configuration file and then those of
    the command line is reading the one list made of both: an option of
    the command line is treated as if it came later in the same list. *)
Theorem configuration_file_then_command_line strtoul conf_argv argv :
  startup strtoul (Some conf_argv) argv
  = startup strtoul None (conf_argv ++ argv)
  /\ forall c,
       parse_args strtoul (conf_argv ++ argv) c
       = bind (parse_args strtoul conf_argv c) (parse_args strtoul argv).
Proof.
  split; [| intros c; apply parse_args_app].
  unfold startup; cbn [bind].
  rewrite parse_args_app.
  now destruct (parse_args strtoul conf_argv initial_config).
Qed.

Lemma parse_option_keeps_levels strtoul o c c' :
  sets_level o = false ->
  parse_option strtoul o c = Return c' -> lvl c' = lvl c.
Proof.
  destruct o; cbn [sets_level parse_option]; intros Hs H;
    try discriminate; try (injection H as <-; reflexivity).
  destruct optarg as [| [[] [] [] [] [] [] [] []] rest];
    injection H as <-; reflexivity.
Qed.

(** X15.  Options other than -w, -c, -d and -f leave the four levels as
    they were. *)
Theorem other_options_keep_levels strtoul argv :
  forall c c',
    forallb (fun o => negb (sets_level o)) argv = true ->
    parse_args strtoul argv c = Return c' ->
    lvl c' = lvl c.
Proof.
  induction argv as [| o rest IH]; intros c c' Hs H.
  - now injection H as <-.
  - cbn [forallb] in Hs; apply andb_true_iff in Hs as [Ho Hrest].
    cbn [parse_args] in H.
    destruct (parse_option strtoul o c) as [c1 | |] eqn:E;
      try discriminate.
    cbn [bind] in H.
    rewrite (IH c1 c' Hrest H).
    eapply parse_option_keeps_levels; [| exact E].
    now destruct (sets_level o).
Qed.

Lemma other_options_keep_levels_witness :
  exists c',
    parse_args (fun _ => 30) [Opt_b; Opt_m "+30"; Opt_n "BAT0,BAT1"; Opt_N]
      initial_config = Return c'
    /\ lvl c' = lvl initial_config.
Proof.
  eexists; split; [reflexivity |].
  apply (other_options_keep_levels (fun _ => 30)
           [Opt_b; Opt_m "+30"; Opt_n "BAT0,BAT1"; Opt_N] initial_config);
    reflexivity.
Defined.

Lemma parse_option_keeps_warning strtoul o c c' :
  is_Opt_w o = false ->
  parse_option strtoul o c = Return c' ->
  warning (lvl c') = warning (lvl c).
Proof.
  destruct o; cbn [is_Opt_w parse_option]; intros Hs H;
    try discriminate; try (injection H as <-; reflexivity).
  destruct optarg as [| [[] [] [] [] [] [] [] []] rest];
    injection H as <-; reflexivity.
Qed.

Lemma parse_args_keeps_warning strtoul argv :
  forall c c',
    forallb (fun o => negb (is_Opt_w o)) argv = true ->
    parse_args strtoul argv c = Return c' ->
    warning (lvl c') = warning (lvl c).
Proof.
  induction argv as [| o rest IH]; intros c c' Hs H.
  - now injection H as <-.
  - cbn [forallb] in Hs; apply andb_true_iff in Hs as [Ho Hrest].
    cbn [parse_args] in H.
    destruct (parse_option strtoul o c) as [c1 | |] eqn:E;
      try discriminate.
    cbn [bind] in H.
    rewrite (IH c1 c' Hrest H).
    eapply parse_option_keeps_warning; [| exact E].
    now destruct (is_Opt_w o).
Qed.

(** X16.  The last -w in an option list decides the warning level: it is
    the number [strtoul] reads from its argument, converted to int,
    whatever -w came before. *)
Theorem last_warning_option_wins strtoul before_w optarg after_w c c' :
  forallb (fun o => negb (is_Opt_w o)) after_w = true ->
  parse_args strtoul (before_w ++ Opt_w optarg :: after_w) c = Return c' ->
  warning (lvl c') = to_int (strtoul optarg).
Proof.
  intros Hs H; rewrite parse_args_app in H.
  destruct (parse_args strtoul before_w c) as [c1 | |];
    try discriminate.
  cbn [bind parse_args parse_option] in H.
  now rewrite (parse_args_keeps_warning strtoul after_w _ c' Hs H).
Qed.

Lemma last_warning_option_wins_witness :
  exists c',
    parse_args (fun s => if String.eqb s "20" then 20 else 4294967311)
      ([Opt_w "20"; Opt_N] ++ Opt_w "4294967311" :: [Opt_c "20"])
      initial_config = Return c'
    /\ warning (lvl c') = 15.
Proof.
  eexists; split; [reflexivity |].
  apply (last_warning_option_wins
           (fun s => if String.eqb s "20" then 20 else 4294967311)
           [Opt_w "20"; Opt_N] "4294967311" [Opt_c "20"] initial_config);
    reflexivity.
Defined.

Lemma parse_option_returns strtoul o c :
  returns o = true -> exists c', parse_option strtoul o c = Return c'.
Proof.
  destruct o; cbn [returns exits parse_option]; intros H;
    try discriminate; eauto.
  - destruct (split optarg ","%char); eauto.
  - destruct optarg as [| [[] [] [] [] [] [] [] []] rest]; eauto.
Qed.

Lemma parse_option_exits strtoul o c r :
  exits o = Some r -> parse_option strtoul o c = Exit r.
Proof.
  destruct o; cbn [exits parse_option]; intros H; try discriminate;
    now injection H as <-.
Qed.

Lemma parse_args_returns strtoul argv :
  forall c,
    forallb returns argv = true ->
    exists c', parse_args strtoul argv c = Return c'.
Proof.
  induction argv as [| o rest IH]; intros c H; [now exists c |].
  cbn [forallb] in H; apply andb_true_iff in H as [Ho Hrest].
  destruct (parse_option_returns strtoul o c Ho) as (c1 & E).
  cbn [parse_args]; rewrite E; cbn [bind]; now apply IH.
Qed.

(** X17.  [parse_args] returns when the list has no -h, no -v, no unknown
    option and no option without its argument; otherwise it ends the
    process at the first of these, with status 0 for -h and -v and with
    a failure for the other two, and what follows in the list has no
    effect, not even a later -h. *)
Theorem first_exit_decides strtoul before_exit o after_exit c r :
  forallb returns before_exit = true ->
  exits o = Some r ->
  parse_args strtoul (before_exit ++ o :: after_exit) c = Exit r
  /\ (exists c', parse_args strtoul before_exit c = Return c')
  /\ (exit_status r = EXIT_SUCCESS <-> o = Opt_h \/ o = Opt_v).
Proof.
  intros Hb Ho.
  destruct (parse_args_returns strtoul before_exit c Hb) as (c1 & E).
  split; [| split; [now exists c1 |]].
  - rewrite parse_args_app, E; cbn [bind parse_args].
    now rewrite (parse_option_exits strtoul o c1 r Ho).
  - destruct o; cbn [exits] in Ho; try discriminate;
      injection Ho as <-; cbn; split; intros H; auto;
      try discriminate; destruct H; discriminate.
Qed.

Lemma first_exit_decides_witness :
  parse_args (fun _ => 0)
    ([Opt_b; Opt_w "10"] ++ Opt_unknown "x" :: [Opt_h]) initial_config
  = Exit (Unknown_option "x").
Proof.
  apply (first_exit_decides (fun _ => 0) [Opt_b; Opt_w "10"]
           (Opt_unknown "x") [Opt_h] initial_config);
    reflexivity.
Defined.

(** ** [split] *)

Lemma contains_append d (a b : string) :
  contains d (a ++ b) = contains d a || contains d b.
Proof.
  induction a as [| ch a IH]; cbn [append contains]; [reflexivity |].
  now rewrite IH, orb_assoc.
Qed.



Lemma pending_token d (p : string) :
  contains d p = false ->
  Forall (fun n => token d n = true) (if nonempty p then [p] else []).
Proof.
  intros Hp; destruct (nonempty p) eqn:E; constructor; [| constructor].
  unfold token; now rewrite E, Hp.
Qed.

Lemma strtok_all_tokens d s :
  forall p,
    contains d p = false ->
    Forall (fun n => token d n = true) (strtok_all d s p).
Proof.
  induction s as [| ch rest IH]; intros p Hp; cbn [strtok_all].
  - now apply pending_token.
  - destruct (Ascii.eqb ch d) eqn:E.
    + apply Forall_app; split; [now apply pending_token | now apply IH].
    + apply IH; rewrite contains_append, Hp; cbn [contains].
      now rewrite E.
Qed.

Lemma initial_count_positive d s : 1 <= initial_count d s.
Proof.
  induction s as [| ch rest IH]; cbn [initial_count]; [lia |].
  destruct (Ascii.eqb ch d); lia.
Qed.

Lemma strtok_all_length d s :
  forall p,
    Z.of_nat (List.length (strtok_all d s p)) <= initial_count d s.
Proof.
  induction s as [| ch rest IH]; intros p;
    cbn [strtok_all initial_count].
  - destruct (nonempty p); cbn; lia.
  - destruct (Ascii.eqb ch d).
    + rewrite length_app.
      specialize (IH EmptyString).
      destruct (nonempty p); cbn [List.length]; lia.
    + specialize (IH (p ++ String ch "")%string); lia.
Qed.

(** X18.  Every name [split] returns is nonempty and free of the
    delimiter; the names are no more than the count returned, and the
    count is at least 1 and at most the number of slots allocated, one
    more than the number of delimiters in the input. *)
Theorem split_names_fit input delim :
  Forall (fun n => token delim n = true) (fst (split input delim))
  /\ Z.of_nat (List.length (fst (split input delim)))
     <= snd (split input delim)
  /\ 1 <= snd (split input delim) <= initial_count delim input.
Proof.
  unfold split; cbn [fst snd].
  pose proof (strtok_all_length delim input EmptyString).
  pose proof (initial_count_positive delim input).
  split; [now apply strtok_all_tokens | lia].
Qed.





(** ** [find_batteries] *)






Lemma read_entries_result entries :
  forall i names,
    read_entries entries i names
    = if existsb (fun e => is_battery (snd e)) entries
      then Stored_outside i i
      else Found names (Z.of_nat i).
Proof.
  induction entries as [| [name s] rest IH]; intros i names;
    cbn [read_entries existsb snd]; [reflexivity |].
  destruct (is_battery s); cbn [orb]; [| apply IH].
  now rewrite Nat.ltb_irrefl.
Qed.

(** X21.  Without -n, [find_batteries] resizes the block of names to [i]
    pointers and then stores the name of battery number [i] at index
    [i].  So when the directory has no battery it returns with no name
    and the number 0, and when it has one, the first name is stored at
    index 0 of a block of 0 pointers, outside the block. *)
Theorem discovery_stores_outside c named entries :
  battery_name_specified (op c) = false ->
  find_batteries c named (Some entries)
  = if existsb (fun e => is_battery (snd e)) entries
    then Stored_outside 0 0
    else Found [] 0.
Proof.
  intros Hn; unfold find_batteries; rewrite Hn.
  apply read_entries_result.
Qed.

Lemma discovery_stores_outside_witness :
  find_batteries initial_config []
    (Some [("AC"%string,
            {| type_file := Some "Mains"%string; dir := missing_battery |});
           ("BAT0"%string,
            {| type_file := Some "Battery"%string;
               dir := capacity_battery "Full" 100 |})])
  = Stored_outside 0 0.
Proof.
  apply (discovery_stores_outside initial_config []
           [("AC"%string,
             {| type_file := Some "Mains"%string; dir := missing_battery |});
            ("BAT0"%string,
             {| type_file := Some "Battery"%string;
                dir := capacity_battery "Full" 100 |})]).
  reflexivity.
Defined.

(** ** A battery that is found and then read *)





(** ** The danger level *)

(** X23.  A turn that finds a discharging battery at or below a nonzero
    danger level sends no message at all, neither a notification nor the
    message command: it runs the danger command if that is not empty and
    the state was not DANGER already, and nothing else. *)
Theorem danger_sends_no_message c notification prev b :
  battery_discharging b = true ->
  danger (lvl c) <> 0 ->
  battery_level b <= danger (lvl c) ->
  battery_state (info_of (main_loop_body c notification prev b))
  = STATE_DANGER
  /\ events_of (main_loop_body c notification prev b)
     = if negb (state_eqb (battery_state b) STATE_DANGER)
          && nonempty (dangercmd (msgs c))
       then [Danger_command (dangercmd (msgs c))]
       else [].
Proof.
  intros Hd Hn Hl.
  apply truth_true in Hn; apply Z.leb_le in Hl.
  split.
  - rewrite body_state; unfold branch; now rewrite Hd, Hn, Hl.
  - unfold main_loop_body, events_of; rewrite Hd, Hn, Hl; cbn [andb].
    destruct (state_eqb (battery_state b) STATE_DANGER); cbn;
      [reflexivity |].
    now destruct (nonempty (dangercmd (msgs c))).
Qed.

Lemma danger_sends_no_message_witness :
  events_of (main_loop_body initial_config true true
               (snapshot 1 true false STATE_AC)) = [].
Proof.
  apply (danger_sends_no_message initial_config true true
           (snapshot 1 true false STATE_AC)); bounds.
Defined.

(** ** How a turn waits *)

Lemma main_loop_waits c notification samples :
  forall b,
    Forall (fun t => waits t = main_loop_wait c (duration t))
           (fst (main_loop c notification samples b)).
Proof.
  induction samples as [| bats rest IH]; intros b; cbn [main_loop].
  - constructor.
  - destruct (update_batteries c bats b) as [b1 | r |]; cbn [fst];
      try constructor.
    destruct (main_loop_body c notification (battery_discharging b) b1)
      as [[b2 evs] d].
    specialize (IH b2).
    destruct (main_loop_wait c d) eqn:E;
      try (destruct (main_loop c notification rest b2) as [ts r]);
      cbn [fst] in *; constructor; cbn [waits duration]; auto.
Qed.

(** X24.  In a run without -o, an interval of 0 makes every turn wait for
    the signal without a timeout, and any other interval makes every
    turn wait with a timeout of [duration] seconds: the delay computed is
    never used when the interval is 0. *)
Theorem interval_zero_waits_for_signal c notification samples b :
  run_once (op c) = false ->
  Forall (fun t =>
            waits t = if multiplier (freq c) =? 0 then Sigwaitinfo
                      else Sigtimedwait (duration t))
         (fst (main_loop c notification samples b)).
Proof.
  intros Ho.
  eapply Forall_impl; [| apply main_loop_waits].
  intros t Ht; rewrite Ht; unfold main_loop_wait; now rewrite Ho.
Qed.

Lemma interval_zero_waits_for_signal_witness :
  Forall (fun t => waits t = Sigwaitinfo)
         (fst (main_loop (thresholds 15 5 2 0 0 false) true
                 [[capacity_battery "Discharging" 50];
                  [capacity_battery "Discharging" 14]]
                 initial_battery_info)).
Proof.
  apply (interval_zero_waits_for_signal (thresholds 15 5 2 0 0 false) true
           [[capacity_battery "Discharging" 50];
            [capacity_battery "Discharging" 14]]
           initial_battery_info).
  reflexivity.
Defined.
